(** * Profile page (client/src/pages/Profile.tsx): persistence and edit state

  A shallow embedding of the state logic of the [Profile] React component:
  the [profile] and [isEditing] state cells, the remote update mutation,
  the guest-mode load and save through [localStorage] under the key
  [guest_profile], and the handlers wired to the form.

  JavaScript strings are sequences of UTF-16 code units; they are modelled
  as [list N].  [JSON.stringify] and [JSON.parse] are the platform's; they
  are modelled after ECMA-262 (QuoteJSONString, SerializeJSONProperty) and
  the JSON grammar of ECMA-404. *)

From Stdlib Require Import NArith String Ascii Lia.
From stdpp Require Import gmap list.

Set Warnings "-register-all".
Local Open Scope N_scope.

(** ** JavaScript strings *)

Module JS.

(** A string literal of the source, as code units (ASCII literals only). *)
Definition js (s : string) : list N :=
  map N_of_ascii (list_ascii_of_string s).

(** [!!s] for a value that is a string or [undefined]/[null]. *)
Definition truthy_str (o : option (list N)) : bool :=
  match o with
  | Some (_ :: _) => true
  | _ => false
  end.

Definition is_digit (c : N) : bool := (48 <=? c) && (c <=? 57).

(** Decimal digits of [n], most significant first ([String(i)] for an
    index [i]). *)
Fixpoint dec_digits (fuel : nat) (n : N) (acc : list N) : list N :=
  match fuel with
  | O => acc
  | S fuel' =>
      let acc' := (48 + n mod 10) :: acc in
      if n / 10 =? 0 then acc' else dec_digits fuel' (n / 10) acc'
  end.

Definition index_key (i : nat) : list N := dec_digits (S i) (N.of_nat i) [].

End JS.

(** ** JSON values, [JSON.stringify] and [JSON.parse] *)

Module JSON.
Import JS.

(** The magnitude of a Number value: zero, [m * 2^e] with [m < 2^53] and
    [-1074 <= e <= 971] ([2^52 <= m] unless [e = -1074]), or infinity. *)
Inductive magnitude : Type :=
| MZero
| MFinite (m : N) (e : Z)
| MInf.

(** A number is the Number value [JSON.parse] gives its literal: a sign and
    a magnitude (NaN has no literal). *)
Inductive json : Type :=
| JNull
| JBool (b : bool)
| JNum (negative : bool) (value : magnitude)
| JStr (s : list N)
| JArr (items : list json)
| JObj (props : list (list N * json)).

(** *** Strings: QuoteJSONString *)

Definition hexdigit (d : N) : N := if d <? 10 then 48 + d else 87 + d.

(** UnicodeEscape: a backslash, [u] and four lowercase hex digits. *)
Definition unicode_escape (c : N) : list N :=
  [92; 117; hexdigit (c / 4096 mod 16); hexdigit (c / 256 mod 16);
   hexdigit (c / 16 mod 16); hexdigit (c mod 16)].

Definition is_high (c : N) : bool := (55296 <=? c) && (c <=? 56319).
Definition is_low (c : N) : bool := (56320 <=? c) && (c <=? 57343).

(** One code point that is not the head of a surrogate pair. *)
Definition quote_unit (c : N) : list N :=
  if c =? 8 then [92; 98]
  else if c =? 9 then [92; 116]
  else if c =? 10 then [92; 110]
  else if c =? 12 then [92; 102]
  else if c =? 13 then [92; 114]
  else if c =? 34 then [92; 34]
  else if c =? 92 then [92; 92]
  else if (c <? 32) || is_high c || is_low c then unicode_escape c
  else [c].

(** The code points of the string are visited in order: a high surrogate
    followed by a low one is one code point and is copied; any other
    surrogate is lone and escaped. *)
Fixpoint quote_units (s : list N) : list N :=
  match s with
  | [] => []
  | c :: s' =>
      if is_high c then
        match s' with
        | d :: s'' =>
            if is_low d then c :: d :: quote_units s''
            else quote_unit c ++ quote_units s'
        | [] => quote_unit c
        end
      else quote_unit c ++ quote_units s'
  end.

Definition quote (s : list N) : list N := 34 :: quote_units s ++ [34].

(** *** Strings: the parser's side *)

Definition unhex (c : N) : option N :=
  if is_digit c then Some (c - 48)
  else if (97 <=? c) && (c <=? 102) then Some (c - 87)
  else if (65 <=? c) && (c <=? 70) then Some (c - 55)
  else None.

Definition hex4 (a b c d : N) : option N :=
  match unhex a, unhex b, unhex c, unhex d with
  | Some x, Some y, Some z, Some w => Some (((x * 16 + y) * 16 + z) * 16 + w)
  | _, _, _, _ => None
  end.

(** The character after a backslash, other than [u]. *)
Definition unescape (e : N) : option N :=
  if e =? 34 then Some 34
  else if e =? 92 then Some 92
  else if e =? 47 then Some 47
  else if e =? 98 then Some 8
  else if e =? 102 then Some 12
  else if e =? 110 then Some 10
  else if e =? 114 then Some 13
  else if e =? 116 then Some 9
  else None.

Definition cons_char (c : N) (r : option (list N * list N)) :
  option (list N * list N) :=
  match r with
  | Some (s, rest) => Some (c :: s, rest)
  | None => None
  end.

(** The characters of a string token after its opening quote: the decoded
    string and what follows the closing quote. *)
Fixpoint parse_chars (s : list N) : option (list N * list N) :=
  match s with
  | [] => None
  | c :: r =>
      if c =? 34 then Some ([], r)
      else if c =? 92 then
        match r with
        | [] => None
        | e :: r1 =>
            if e =? 117 then
              match r1 with
              | h1 :: h2 :: h3 :: h4 :: r2 =>
                  match hex4 h1 h2 h3 h4 with
                  | Some u => cons_char u (parse_chars r2)
                  | None => None
                  end
              | _ => None
              end
            else
              match unescape e with
              | Some u => cons_char u (parse_chars r1)
              | None => None
              end
        end
      else if c <? 32 then None
      else cons_char c (parse_chars r)
  end.

(** *** Numbers and literals *)

Definition is_ws (c : N) : bool :=
  (c =? 32) || (c =? 9) || (c =? 10) || (c =? 13).

Fixpoint skip_ws (s : list N) : list N :=
  match s with
  | c :: r => if is_ws c then skip_ws r else s
  | [] => []
  end.

(** The longest run of decimal digits at the head of [s]. *)
Fixpoint digits (s : list N) : list N * list N :=
  match s with
  | c :: r =>
      if is_digit c then let '(ds, rest) := digits r in (c :: ds, rest)
      else ([], s)
  | [] => ([], [])
  end.

(** int: a single 0, or a non-zero digit followed by digits. *)
Definition lex_int (s : list N) : option (list N * list N) :=
  match s with
  | c :: r =>
      if c =? 48 then Some ([48], r)
      else if is_digit c then let '(ds, rest) := digits r in Some (c :: ds, rest)
      else None
  | [] => None
  end.

(** frac: nothing, or a dot and at least one digit. *)
Definition lex_frac (s : list N) : option (list N * list N) :=
  match s with
  | c :: r =>
      if c =? 46 then
        match digits r with
        | ([], _) => None
        | (ds, rest) => Some (46 :: ds, rest)
        end
      else Some ([], s)
  | [] => Some ([], [])
  end.

(** exp: nothing, or e/E, an optional sign and at least one digit. *)
Definition lex_exp (s : list N) : option (list N * list N) :=
  match s with
  | c :: r =>
      if (c =? 101) || (c =? 69) then
        let '(sign, r') :=
          match r with
          | d :: r1 => if (d =? 43) || (d =? 45) then ([d], r1) else ([], r)
          | [] => ([], r)
          end in
        match digits r' with
        | ([], _) => None
        | (ds, rest) => Some (c :: sign ++ ds, rest)
        end
      else Some ([], s)
  | [] => Some ([], [])
  end.

Definition lex_number (s : list N) : option (list N * list N) :=
  let '(sign, s1) :=
    match s with
    | c :: r => if c =? 45 then ([45], r) else ([], s)
    | [] => ([], s)
    end in
  match lex_int s1 with
  | None => None
  | Some (i, s2) =>
      match lex_frac s2 with
      | None => None
      | Some (f, s3) =>
          match lex_exp s3 with
          | None => None
          | Some (e, s4) => Some (sign ++ i ++ f ++ e, s4)
          end
      end
  end.

(** [s] without the prefix [p], when it starts with it. *)
Fixpoint strip_prefix (p s : list N) : option (list N) :=
  match p, s with
  | [], _ => Some s
  | a :: p', b :: s' => if a =? b then strip_prefix p' s' else None
  | _ :: _, [] => None
  end.

(** *** Objects as JavaScript keeps them *)

(** An array index: a canonical decimal numeral below 2^32 - 1. *)
Definition numeral (k : list N) : N :=
  fold_left (fun n c => n * 10 + (c - 48)) k 0.

Definition array_index (k : list N) : option N :=
  match k with
  | [] => None
  | c :: r =>
      if forallb is_digit k && ((negb (c =? 48)) || (match r with [] => true | _ => false end))
         && (length k <=? 10)%nat && (numeral k <? 4294967295)
      then Some (numeral k) else None
  end.

Fixpoint obj_get (k : list N) (ps : list (list N * json)) : option json :=
  match ps with
  | [] => None
  | (k', v) :: ps' => if decide (k = k') then Some v else obj_get k ps'
  end.

Fixpoint obj_replace (k : list N) (v : json) (ps : list (list N * json)) :
  list (list N * json) :=
  match ps with
  | [] => []
  | (k', v') :: ps' =>
      if decide (k = k') then (k', v) :: ps' else (k', v') :: obj_replace k v ps'
  end.

(** A new index key goes before the first key that is not a smaller
    index; a new string key goes last. *)
Fixpoint obj_add_index (i : N) (k : list N) (v : json)
  (ps : list (list N * json)) : list (list N * json) :=
  match ps with
  | [] => [(k, v)]
  | (k', v') :: ps' =>
      match array_index k' with
      | Some j => if j <? i then (k', v') :: obj_add_index i k v ps'
                  else (k, v) :: ps
      | None => (k, v) :: ps
      end
  end.

(** CreateDataProperty on an ordinary object: an existing key keeps its
    place and takes the new value; own keys enumerate as the array indices
    in ascending order, then the other keys in creation order. *)
Definition obj_set (k : list N) (v : json) (ps : list (list N * json)) :
  list (list N * json) :=
  match obj_get k ps with
  | Some _ => obj_replace k v ps
  | None =>
      match array_index k with
      | Some i => obj_add_index i k v ps
      | None => ps ++ [(k, v)]
      end
  end.

(** *** Number values *)

Definition magnitude_eqb (a b : magnitude) : bool :=
  match a, b with
  | MZero, MZero => true
  | MFinite m e, MFinite m' e' => (m =? m') && (e =? e')%Z
  | MInf, MInf => true
  | _, _ => false
  end.

(** The fraction [q.1 / q.2] times [10^p], and times [2^p]. *)
Definition scale10 (q : N * N) (p : Z) : N * N :=
  if (0 <=? p)%Z then (q.1 * 10 ^ Z.to_N p, q.2)
  else (q.1, q.2 * 10 ^ Z.to_N (- p)).

Definition scale2 (q : N * N) (p : Z) : N * N :=
  if (0 <=? p)%Z then (q.1 * 2 ^ Z.to_N p, q.2)
  else (q.1, q.2 * 2 ^ Z.to_N (- p)).

(** The integer part of the binary logarithm of a positive fraction. *)
Definition floor_log2 (q : N * N) : Z :=
  let d := (Z.of_N (N.log2 q.1) - Z.of_N (N.log2 q.2))%Z in
  let '(a, b) := scale2 q (- d) in
  if b <=? a then d else (d - 1)%Z.

(** [a / b] to the nearest integer, a tie to the even one. *)
Definition round_half_even (a b : N) : N :=
  let q := a / b in
  let r := a mod b in
  if (b <? 2 * r) || ((2 * r =? b) && N.odd q) then q + 1 else q.

(** The Number value for a non-negative fraction: IEEE 754 binary64,
    round to nearest, ties to even. A fraction of at most [2^-1075] gives
    zero, one of [2^1024 - 2^970] or more gives infinity. *)
Definition round_double (q : N * N) : magnitude :=
  if q.1 =? 0 then MZero
  else
    let e := Z.max (floor_log2 q - 52) (-1074) in
    let '(a, b) := scale2 q (- e) in
    let m := round_half_even a b in
    let '(m, e) := if m =? 2 ^ 53 then (2 ^ 52, (e + 1)%Z) else (m, e) in
    if m =? 0 then MZero
    else if (971 <? e)%Z then MInf
    else MFinite m e.

(** The sign, the digits and the power of ten of a number literal:
    [-12.5e3] is [-] and [125 * 10^2]. *)
Definition literal_parts (lexeme : list N) : bool * N * Z :=
  let '(neg, s1) :=
    match lexeme with
    | c :: r => if c =? 45 then (true, r) else (false, lexeme)
    | [] => (false, [])
    end in
  let '(i, s2) := digits s1 in
  let '(f, s3) :=
    match s2 with
    | c :: r => if c =? 46 then digits r else ([], s2)
    | [] => ([], [])
    end in
  let x :=
    match s3 with
    | c :: r =>
        if (c =? 101) || (c =? 69) then
          match r with
          | d :: r1 =>
              if d =? 45 then (- Z.of_N (numeral ((digits r1).1)))%Z
              else if d =? 43 then Z.of_N (numeral ((digits r1).1))
              else Z.of_N (numeral ((digits r).1))
          | [] => 0%Z
          end
        else 0%Z
    | [] => 0%Z
    end in
  (neg, numeral (i ++ f), (x - Z.of_nat (length f))%Z).

(** The Number value of a number literal, correctly rounded (ECMA-262
    lets an engine stop at the 20th significant digit; the engines in use
    round correctly). *)
Definition number_of (lexeme : list N) : bool * magnitude :=
  let '(neg, digs, p) := literal_parts lexeme in
  (neg, round_double (scale10 (digs, 1) p)).

(** The decimal digits of [n]. *)
Definition decimal (n : N) : list N := dec_digits (S (N.size_nat n)) n [].

(** The least [j], from [j] on, with [1 <= q * 10^j]. *)
Fixpoint first_power (fuel : nat) (q : N * N) (j : Z) : Z :=
  match fuel with
  | O => j
  | S fuel' =>
      if q.2 <=? q.1 * 10 ^ Z.to_N j then j
      else first_power fuel' q (j + 1)
  end.

(** The [n] with [10^(n-1) <= q < 10^n], for a positive fraction that is
    a Number value (the least is above [10^-324]). *)
Definition order10 (q : N * N) : Z :=
  if q.2 <=? q.1 then Z.of_nat (length (decimal (q.1 / q.2)))
  else (1 - first_power 400 q 1)%Z.

(** An integer [s] next to [x / 10^(n-k)] such that [s * 10^(n-k)] is the
    Number value [target]; of two, the one closer to [x]. *)
Definition candidate (x : N * N) (target : magnitude) (n k : Z) : option N :=
  let '(a, b) := scale10 x (k - n) in
  let lo := a / b in
  let hi := lo + 1 in
  let ok s := magnitude_eqb (round_double (scale10 (s, 1) (n - k))) target in
  let lo_closer :=
    (2 * (a mod b) <? b) || ((2 * (a mod b) =? b) && N.even lo) in
  match ok lo, ok hi with
  | true, true => Some (if lo_closer then lo else hi)
  | true, false => Some lo
  | false, true => Some hi
  | false, false => None
  end.

(** The least number of digits [k], from [k] on, that has a candidate, and
    the candidate; seventeen digits always do. *)
Fixpoint shortest (fuel : nat) (x : N * N) (target : magnitude) (n k : Z) :
  N * Z :=
  match fuel with
  | O => (0, k)
  | S fuel' =>
      match candidate x target n k with
      | Some s => (s, k)
      | None => shortest fuel' x target n (k + 1)
      end
  end.

(** Number::toString, steps 6 to 10: the digits [ds] of [s] laid out for
    the decimal exponent [n]. *)
Definition format_number (ds : list N) (n : Z) : list N :=
  let k := Z.of_nat (length ds) in
  if ((k <=? n) && (n <=? 21))%Z then ds ++ repeat 48 (Z.to_nat (n - k))
  else if ((0 <? n) && (n <=? 21))%Z then
    firstn (Z.to_nat n) ds ++ 46 :: skipn (Z.to_nat n) ds
  else if ((-6 <? n) && (n <=? 0))%Z then
    48 :: 46 :: repeat 48 (Z.to_nat (- n)) ++ ds
  else
    let sign := if (0 <=? n - 1)%Z then 43 else 45 in
    let ex := decimal (Z.to_N (Z.abs (n - 1))) in
    match ds with
    | [] => []
    | [d] => d :: 101 :: sign :: ex
    | d :: rest => d :: 46 :: rest ++ 101 :: sign :: ex
    end.

(** Number::toString: the shortest digits that read back as the same
    Number value. *)
Definition number_to_string (neg : bool) (v : magnitude) : list N :=
  match v with
  | MZero => [48]
  | MInf => (if neg then [45] else []) ++ js "Infinity"
  | MFinite m e =>
      if m =? 0 then [48]
      else
        let x := scale2 (m, 1) e in
        let n := order10 x in
        let '(s, k) := shortest 17 x v n 1 in
        let '(ds, n) :=
          if s =? 10 ^ Z.to_N k then ([49], (n + 1)%Z) else (decimal s, n) in
        (if neg then [45] else []) ++ format_number ds n
  end.

(** *** The parser *)

Inductive result (A : Type) : Type :=
| Ok (a : A)
| Malformed
| OutOfFuel.
Arguments Ok {A} a.
Arguments Malformed {A}.
Arguments OutOfFuel {A}.

Fixpoint parse_value (fuel : nat) (s : list N) {struct fuel} :
  result (json * list N) :=
  match fuel with
  | O => OutOfFuel
  | S fuel' =>
      match skip_ws s with
      | [] => Malformed
      | c :: r =>
          if c =? 34 then
            match parse_chars r with
            | Some (str, rest) => Ok (JStr str, rest)
            | None => Malformed
            end
          else if c =? 91 then
            match skip_ws r with
            | d :: r' =>
                if d =? 93 then Ok (JArr [], r')
                else parse_elements fuel' [] r
            | [] => Malformed
            end
          else if c =? 123 then
            match skip_ws r with
            | d :: r' =>
                if d =? 125 then Ok (JObj [], r')
                else parse_members fuel' [] r
            | [] => Malformed
            end
          else
            match strip_prefix (js "null") (c :: r) with
            | Some rest => Ok (JNull, rest)
            | None =>
            match strip_prefix (js "true") (c :: r) with
            | Some rest => Ok (JBool true, rest)
            | None =>
            match strip_prefix (js "false") (c :: r) with
            | Some rest => Ok (JBool false, rest)
            | None =>
            match lex_number (c :: r) with
            | Some (lexeme, rest) =>
                Ok (JNum (number_of lexeme).1 (number_of lexeme).2, rest)
            | None => Malformed
            end end end end
      end
  end

(** The elements of an array after its opening bracket (or after a comma);
    [acc] holds the elements read so far, last first. *)
with parse_elements (fuel : nat) (acc : list json) (s : list N)
  {struct fuel} : result (json * list N) :=
  match fuel with
  | O => OutOfFuel
  | S fuel' =>
      match parse_value fuel' s with
      | Ok (v, r) =>
          match skip_ws r with
          | d :: r' =>
              if d =? 44 then parse_elements fuel' (v :: acc) r'
              else if d =? 93 then Ok (JArr (rev (v :: acc)), r')
              else Malformed
          | [] => Malformed
          end
      | Malformed => Malformed
      | OutOfFuel => OutOfFuel
      end
  end

(** The members of an object after its opening brace (or after a comma);
    [acc] holds the properties created so far. *)
with parse_members (fuel : nat) (acc : list (list N * json)) (s : list N)
  {struct fuel} : result (json * list N) :=
  match fuel with
  | O => OutOfFuel
  | S fuel' =>
      match skip_ws s with
      | q :: r0 =>
          if q =? 34 then
            match parse_chars r0 with
            | Some (k, r1) =>
                match skip_ws r1 with
                | colon :: r2 =>
                    if colon =? 58 then
                      match parse_value fuel' r2 with
                      | Ok (v, r3) =>
                          match skip_ws r3 with
                          | d :: r4 =>
                              if d =? 44 then parse_members fuel' (obj_set k v acc) r4
                              else if d =? 125 then Ok (JObj (obj_set k v acc), r4)
                              else Malformed
                          | [] => Malformed
                          end
                      | Malformed => Malformed
                      | OutOfFuel => OutOfFuel
                      end
                    else Malformed
                | [] => Malformed
                end
            | None => Malformed
            end
          else Malformed
      | [] => Malformed
      end
  end.

(** A JSON text: one value with white space around it and nothing else. *)
Definition parse_text (s : list N) : result json :=
  match parse_value (2 * length s + 1) s with
  | Ok (v, rest) =>
      match skip_ws rest with
      | [] => Ok v
      | _ :: _ => Malformed
      end
  | Malformed => Malformed
  | OutOfFuel => OutOfFuel
  end.

(** [JSON.parse(text)]: [None] stands for the SyntaxError it throws. *)
Definition JSON_parse (s : list N) : option json :=
  match parse_text s with
  | Ok v => Some v
  | _ => None
  end.

(** *** [JSON.stringify] *)

Section Join.
Variable serialize : json -> list N.

(** The elements of an array, comma separated. *)
Fixpoint elements (vs : list json) : list N :=
  match vs with
  | [] => []
  | [x] => serialize x
  | x :: vs' => serialize x ++ 44 :: elements vs'
  end.

(** The members of an object, comma separated. *)
Fixpoint members (ps : list (list N * json)) : list N :=
  match ps with
  | [] => []
  | [(k, x)] => quote k ++ 58 :: serialize x
  | (k, x) :: ps' => quote k ++ 58 :: serialize x ++ 44 :: members ps'
  end.
End Join.

(** SerializeJSONProperty on a value that came out of [JSON.parse] or is a
    string: no [undefined], functions or symbols occur, no [toJSON]. *)
Fixpoint stringify (v : json) : list N :=
  match v with
  | JNull => js "null"
  | JBool true => js "true"
  | JBool false => js "false"
  | JNum neg MInf => js "null"
  | JNum neg v => number_to_string neg v
  | JStr s => quote s
  | JArr items => 91 :: elements stringify items ++ [93]
  | JObj props => 123 :: members stringify props ++ [125]
  end.

(** An object literal of the source, [{k1: e1, ..., kn: en}], is a list of
    keys with the values of the expressions; [None] is [undefined]. *)
Definition literal := list (list N * option json).

(** SerializeJSONObject: a property whose value is [undefined] is left
    out. *)
Fixpoint defined_props (o : literal) : list (list N * json) :=
  match o with
  | [] => []
  | (k, Some v) :: o' => (k, v) :: defined_props o'
  | (_, None) :: o' => defined_props o'
  end.

Definition JSON_stringify (o : literal) : list N :=
  stringify (JObj (defined_props o)).

(** *** Values as the page uses them *)

(** ToBoolean: null, false, zero of either sign and the empty string are
    falsy. *)
Definition truthy (v : json) : bool :=
  match v with
  | JNull => false
  | JBool b => b
  | JNum _ v =>
      match v with
      | MZero => false
      | MFinite m _ => negb (m =? 0)
      | MInf => true
      end
  | JStr s => match s with [] => false | _ => true end
  | JArr _ => true
  | JObj _ => true
  end.

(** [x[i]] keyed by its index, for the own enumerable properties of an
    array or of a string. *)
Fixpoint indexed {A : Type} (i : nat) (xs : list A) : list (list N * A) :=
  match xs with
  | [] => []
  | x :: xs' => (index_key i, x) :: indexed (S i) xs'
  end.

(** The own enumerable properties that a spread [...v] copies, in order. *)
Definition own_props (v : json) : list (list N * json) :=
  match v with
  | JObj props => props
  | JArr items => indexed 0 items
  | JStr s => indexed 0 (map (fun c => JStr [c]) s)
  | JNull | JBool _ | JNum _ _ => []
  end.

(** [v.k] for a key that no prototype defines. *)
Definition get_prop (v : json) (k : list N) : option json :=
  match v with
  | JObj props => obj_get k props
  | _ => None
  end.

(** *** Notions for stating what the parser and the printer do *)

(** Creating the properties [ps] one after the other on [acc]. *)
Definition create_all (ps : list (list N * json))
  (acc : list (list N * json)) : list (list N * json) :=
  fold_left (fun a kv => obj_set kv.1 kv.2 a) ps acc.

Definition all_strings (ps : list (list N * json)) : Prop :=
  Forall (fun kv => exists s, kv.2 = JStr s) ps.

(** The parser [f] leaves less than it was given. *)
Definition consumes (f : list N -> result (json * list N)) : Prop :=
  forall s v r, f s = Ok (v, r) -> (length r < length s)%nat.

End JSON.

(** ** The page *)

Module Page.
Import JS JSON.

(** *** What the page calls into *)

(** [useToast]: the notifications shown. *)
Inductive Variant : Type := Plain | Destructive.

Record Toast : Type := mkToast {
  title : string;
  description : string;
  variant : Variant
}.

(** [localStorage]: the stored items, and which writes the browser takes;
    [setItem] throws (quota exceeded, storage disabled) on the others. *)
Record Storage : Type := mkStorage {
  items : gmap (list N) (list N);
  accepts : list N -> list N -> bool
}.

Definition getItem (k : list N) (st : Storage) : option (list N) :=
  items st !! k.

Definition setItem (k v : list N) (st : Storage) : option Storage :=
  if accepts st k v
  then Some {| items := <[k := v]> (items st); accepts := accepts st |}
  else None.

(** [apiRequest(method, url, data)]: one request sent to the account
    service. *)
Record Request : Type := mkRequest {
  method : list N;
  url : list N;
  data : literal
}.

(** How the awaited request and [response.json()] settle; [apiRequest]
    itself is outside the page, and its outcome is an input here. *)
Inductive Outcome : Type := Resolved | Rejected.

(** Modelled from the spec: the type of [currentUser] comes from
    [@/context/AuthContext] and [@shared/schema], which are not in the
    source. The spec gives the session a [userId], an optional identifier,
    and writes it as a string (["42"]); an account is known here by its
    [id], a string. *)
Record Account : Type := mkAccount { id : list N }.

(** [useAuth] and [useQuery], as one render sees them. *)

Record Props : Type := mkProps {
  currentUser : option Account;
  isAuthenticated : bool;
  authLoading : bool;
  user : option json;
  isLoading : bool
}.

(** [const userId = currentUser?.id] *)
Definition userId (p : Props) : option (list N) := id <$> currentUser p.

(** [enabled: !!userId && isAuthenticated] *)
Definition query_enabled (p : Props) : bool :=
  truthy_str (userId p) && isAuthenticated p.

(** [const isGuestMode = !isAuthenticated || !userId] *)
Definition isGuestMode (p : Props) : bool :=
  negb (isAuthenticated p) || negb (truthy_str (userId p)).

(** *** State *)

Inductive MutationError : Type :=
| MustLogin          (* thrown by mutationFn when there is no userId *)
| RequestFailed.     (* apiRequest or response.json() rejected *)

(** [updateProfileMutation]: idle, in flight with what [mutationFn] did,
    or settled. *)
Inductive Mutation : Type :=
| Idle
| Pending (job : MutationError + Request)
| Success
| Failed (e : MutationError).

Record World : Type := mkWorld {
  profile : gmap (list N) json;          (* useState: profile *)
  isEditing : bool;                      (* useState: isEditing *)
  mutation : Mutation;
  localStorage : Storage;
  network : list Request;                (* apiRequest calls, oldest first *)
  toasts : list Toast;                   (* oldest first *)
  console : list string;                 (* console.error calls *)
  invalidated : list (list N * option (list N))   (* invalidateQueries *)
}.

Definition setProfile (f : gmap (list N) json -> gmap (list N) json)
  (w : World) : World :=
  mkWorld (f (profile w)) (isEditing w) (mutation w) (localStorage w)
          (network w) (toasts w) (console w) (invalidated w).

Definition setIsEditing (b : bool) (w : World) : World :=
  mkWorld (profile w) b (mutation w) (localStorage w)
          (network w) (toasts w) (console w) (invalidated w).

Definition set_mutation (m : Mutation) (w : World) : World :=
  mkWorld (profile w) (isEditing w) m (localStorage w)
          (network w) (toasts w) (console w) (invalidated w).

Definition set_localStorage (st : Storage) (w : World) : World :=
  mkWorld (profile w) (isEditing w) (mutation w) st
          (network w) (toasts w) (console w) (invalidated w).

Definition send (r : Request) (w : World) : World :=
  mkWorld (profile w) (isEditing w) (mutation w) (localStorage w)
          (network w ++ [r]) (toasts w) (console w) (invalidated w).

Definition toast (t : Toast) (w : World) : World :=
  mkWorld (profile w) (isEditing w) (mutation w) (localStorage w)
          (network w) (toasts w ++ [t]) (console w) (invalidated w).

Definition console_error (msg : string) (w : World) : World :=
  mkWorld (profile w) (isEditing w) (mutation w) (localStorage w)
          (network w) (toasts w) (console w ++ [msg]) (invalidated w).

Definition invalidateQueries (key : list N * option (list N)) (w : World) :
  World :=
  mkWorld (profile w) (isEditing w) (mutation w) (localStorage w)
          (network w) (toasts w) (console w) (invalidated w ++ [key]).

(** The five editable attributes and their property names. *)
Inductive Field : Type := username | name | phone | email | address.

Definition key (f : Field) : list N :=
  match f with
  | username => js "username"
  | name => js "name"
  | phone => js "phone"
  | email => js "email"
  | address => js "address"
  end.

Definition fields : list Field := [username; name; phone; email; address].

(** [useState({username: '', name: '', phone: '', email: '', address: ''})] *)
Definition initial_profile : gmap (list N) json :=
  list_to_map (map (fun f => (key f, JStr [])) fields).

Definition initial (st : Storage) : World :=
  mkWorld initial_profile false Idle st [] [] [] [].

(** *** The update mutation (lines 42-63) *)

(** The object literal with the five attributes read off [profile], as
    both save paths build it. *)
Definition profileData (w : World) : literal :=
  map (fun f => (key f, profile w !! key f)) fields.

(** [`${userId}`] *)
Definition template (x : option (list N)) : list N :=
  match x with
  | Some s => s
  | None => js "undefined"
  end.

Definition mutationFn (p : Props) (d : literal) : MutationError + Request :=
  if negb (truthy_str (userId p)) then inl MustLogin
  else inr {| method := js "PUT";
              url := js "/api/users/" ++ template (userId p);
              data := d |}.

(** [updateProfileMutation.mutate(d)]: the mutation goes pending and
    [mutationFn] runs; it sends the request unless it throws first. *)
Definition mutate (p : Props) (d : literal) (w : World) : World :=
  match mutationFn p d with
  | inr r => set_mutation (Pending (inr r)) (send r w)
  | inl e => set_mutation (Pending (inl e)) w
  end.

Definition onSuccess (p : Props) (w : World) : World :=
  toast {| title := "تم حفظ البيانات";
           description := "تم تحديث معلومات الملف الشخصي بنجاح";
           variant := Plain |}
    (setIsEditing false
       (invalidateQueries (js "/api/users", userId p) w)).

Definition onError (w : World) : World :=
  toast {| title := "خطأ في الحفظ";
           description := "حدث خطأ أثناء تحديث البيانات. يرجى المحاولة مرة أخرى.";
           variant := Destructive |} w.

(** The pending mutation settles: [o] says how the request ended, when one
    was sent. *)
Definition settle (p : Props) (o : Outcome) (w : World) : World :=
  match mutation w with
  | Pending (inl e) => onError (set_mutation (Failed e) w)
  | Pending (inr _) =>
      match o with
      | Resolved => onSuccess p (set_mutation Success w)
      | Rejected => onError (set_mutation (Failed RequestFailed) w)
      end
  | _ => w
  end.

Definition isPending (w : World) : bool :=
  match mutation w with
  | Pending _ => true
  | _ => false
  end.

(** *** Loading (lines 65-76 and 107-120) *)

(** [x || ''] *)
Definition or_empty (x : option json) : json :=
  match x with
  | Some v => if truthy v then v else JStr []
  | None => JStr []
  end.

(** The effect on [user]: the whole record is replaced. *)
Definition userEffect (p : Props) (w : World) : World :=
  match user p with
  | Some u =>
      if truthy u
      then setProfile
             (fun _ => list_to_map
                         (map (fun f => (key f, or_empty (get_prop u (key f))))
                              fields)) w
      else w
  | None => w
  end.

(** [{...prev, ...parsed}] *)
Definition spread (prev : gmap (list N) json) (parsed : json) :
  gmap (list N) json :=
  fold_left (fun m kv => <[kv.1 := kv.2]> m) (own_props parsed) prev.

(** The effect on [isGuestMode]. *)
Definition guestLoadEffect (p : Props) (w : World) : World :=
  if isGuestMode p then
    match getItem (js "guest_profile") (localStorage w) with
    | Some guestProfile =>
        if truthy_str (Some guestProfile) then
          match JSON_parse guestProfile with
          | Some parsedProfile =>
              setProfile (fun prev => spread prev parsedProfile) w
          | None => console_error "Error loading guest profile:" w
          end
        else w
    | None => w
    end
  else w.

(** *** Saving (lines 78-90 and 122-144) *)

Definition handleGuestSave (w : World) : World :=
  match setItem (js "guest_profile") (JSON_stringify (profileData w))
                (localStorage w) with
  | Some st =>
      toast {| title := "تم حفظ البيانات محلياً";
               description := "تم حفظ معلوماتك محلياً. للحفظ الدائم، يمكنك تسجيل حساب جديد.";
               variant := Plain |}
        (setIsEditing false (set_localStorage st w))
  | None =>
      toast {| title := "خطأ في الحفظ";
               description := "حدث خطأ أثناء حفظ البيانات محلياً";
               variant := Destructive |} w
  end.

Definition handleSave (p : Props) (w : World) : World :=
  if isGuestMode p then handleGuestSave w
  else mutate p (profileData w) w.

(** *** The form (lines 192-289) *)

(** [onChange] of the input of attribute [f]:
    [setProfile(prev => ({...prev, f: e.target.value}))] *)
Definition onChange (f : Field) (value : list N) (w : World) : World :=
  setProfile (fun prev => <[key f := JStr value]> prev) w.

(** The page shows the spinner instead of the card. *)
Definition loading (p : Props) : bool := authLoading p || isLoading p.

(** [disabled={!isGuestMode && updateProfileMutation.isPending}] *)
Definition save_disabled (p : Props) (w : World) : bool :=
  negb (isGuestMode p) && isPending w.

Inductive Event : Type :=
| ClickEdit                                  (* button-edit-profile *)
| Change (f : Field) (value : list N)        (* input-profile-... *)
| ClickSave                                  (* button-save-profile *)
| ClickCancel                                (* button-cancel-edit *)
| Settled (o : Outcome).                     (* the mutation settles *)

(** One event on the rendered page; [None] when the page as rendered
    offers no such event. *)
Definition step (p : Props) (w : World) (e : Event) : option World :=
  match e with
  | ClickEdit =>
      if negb (loading p) && negb (isEditing w)
      then Some (setIsEditing true w) else None
  | Change f value =>
      if negb (loading p) && isEditing w
      then Some (onChange f value w) else None
  | ClickSave =>
      if negb (loading p) && isEditing w && negb (save_disabled p w)
      then Some (handleSave p w) else None
  | ClickCancel =>
      if negb (loading p) && isEditing w
      then Some (setIsEditing false w) else None
  | Settled o =>
      if isPending w then Some (settle p o w) else None
  end.

(** The effects of the first render that shows the card, in the order
    the component declares them. The guest-load hook is called after the
    early return for the loading state, so this is the first render in
    which both run. *)
Definition mount (p : Props) (st : Storage) : World :=
  guestLoadEffect p (userEffect p (initial st)).

Fixpoint run (p : Props) (w : World) (es : list Event) : option World :=
  match es with
  | [] => Some w
  | e :: es' =>
      match step p w e with
      | Some w' => run p w' es'
      | None => None
      end
  end.

(** The worlds the page can be in: it starts from the initial state over
    some storage; the hooks may hand it other values at every render. *)
Inductive reachable : World -> Prop :=
| reach_initial st : reachable (initial st)
| reach_userEffect p w : reachable w -> reachable (userEffect p w)
| reach_guestLoadEffect p w : reachable w -> reachable (guestLoadEffect p w)
| reach_step p w e w' : reachable w -> step p w e = Some w' -> reachable w'.

(** The mutation neither is about to fail nor has failed for want of a
    [userId]. *)
Definition no_login_error (m : Mutation) : Prop :=
  match m with
  | Pending (inl MustLogin) | Failed MustLogin => False
  | _ => True
  end.

(** The request a signed-in save sends. *)
Definition put_request (p : Props) (w : World) : Request :=
  {| method := js "PUT";
     url := js "/api/users/" ++ template (userId p);
     data := profileData w |}.

(** *** Sample sessions *)

(** A storage with nothing in it that takes every write. *)
Definition open_storage : Storage := mkStorage ∅ (fun _ _ => true).

(** A storage with nothing in it that is full. *)
Definition full_storage : Storage := mkStorage ∅ (fun _ _ => false).

Definition holding (blob : list N) : Storage :=
  mkStorage {[ js "guest_profile" := blob ]} (fun _ _ => true).

(** Nobody is signed in. *)
Definition guest : Props := mkProps None false false None false.

(** The account 42 is signed in and its record has been fetched; it has
    a name and a phone number only. *)
Definition omar : Props :=
  mkProps (Some (mkAccount (js "42"))) true false
          (Some (JObj [(js "name", JStr (js "Omar"));
                       (js "phone", JStr (js "0500000000"))]))
          false.

(** A guest profile left in storage by another version of the page: no
    phone, and a key the form does not know. *)
Definition partial_blob : list N :=
  js "{" ++ quote (js "name") ++ js ": " ++ quote (js "Sara") ++ js ", "
     ++ quote (js "city") ++ js ": " ++ quote (js "Sanaa") ++ js "}".

(** The profile record of the specification: five strings. *)
Record ProfileFields : Type := mkFields {
  f_username : list N;
  f_name : list N;
  f_phone : list N;
  f_email : list N;
  f_address : list N
}.

Definition field_of (r : ProfileFields) (f : Field) : list N :=
  match f with
  | username => f_username r
  | name => f_name r
  | phone => f_phone r
  | email => f_email r
  | address => f_address r
  end.

(** The in-memory object [m] carries the record [r]. *)
Definition holds (m : gmap (list N) json) (r : ProfileFields) : Prop :=
  forall f : Field, m !! key f = Some (JStr (field_of r f)).

(** The object [{username: ..., name: ..., phone: ..., email: ...,
    address: ...}] of the record [r]. *)
Definition object_of (r : ProfileFields) : json :=
  JObj (map (fun f => (key f, JStr (field_of r f))) fields).

(** The string the effect on [user] stores for a fetched property. *)
Definition fetched (x : option json) : list N :=
  match x with
  | Some (JStr s) => s
  | _ => []
  end.

(** *** Sessions whose hooks change between events *)

(** What can happen to the page between two renders: an event on the card,
    or one of the two effects running because its dependency changed. *)
Inductive Action : Type :=
| Fire (e : Event)
| RunUserEffect
| RunGuestLoadEffect.

Definition act (p : Props) (w : World) (a : Action) : option World :=
  match a with
  | Fire e => step p w e
  | RunUserEffect => Some (userEffect p w)
  | RunGuestLoadEffect => Some (guestLoadEffect p w)
  end.

(** A session: every action comes with the values the hooks hand to the
    render it happens in. *)
Fixpoint play (w : World) (l : list (Props * Action)) : option World :=
  match l with
  | [] => Some w
  | (p, a) :: l' =>
      match act p w a with
      | Some w' => play w' l'
      | None => None
      end
  end.

Definition is_typing (a : Action) : bool :=
  match a with
  | Fire (Change _ _) => true
  | _ => false
  end.

Definition is_effect (a : Action) : bool :=
  match a with
  | Fire _ => false
  | RunUserEffect | RunGuestLoadEffect => true
  end.

Definition is_settlement (a : Action) : bool :=
  match a with
  | Fire (Settled _) => true
  | _ => false
  end.

Definition is_object (v : json) : bool :=
  match v with
  | JObj _ => true
  | _ => false
  end.

(** A request as the page means to send it: the PUT of the five attributes
    to the URL of an account with a non-empty id. *)
Definition well_formed_request (r : Request) : Prop :=
  method r = js "PUT" /\
  (exists i, i <> [] /\ url r = js "/api/users/" ++ i) /\
  map fst (data r) = map key fields.


End Page.

(** * Properties *)

(** ** Strings survive [JSON.stringify] and [JSON.parse] *)

Module JSONFacts.
Import JS JSON.

Ltac Zify.zify_post_hook ::= Z.to_euclidean_division_equations.

(** Case analysis on every comparison of code units in the goal. *)
Ltac cases_N :=
  repeat match goal with
    | |- context [N.eqb ?a ?b] => destruct (N.eqb_spec a b)
    | |- context [N.leb ?a ?b] => destruct (N.leb_spec a b)
    | |- context [N.ltb ?a ?b] => destruct (N.ltb_spec a b)
    end.

Lemma unhex_hexdigit d : d < 16 -> unhex (hexdigit d) = Some d.
Proof.
  intros Hd. unfold unhex, hexdigit, is_digit.
  cases_N; simpl; try lia; f_equal; lia.
Qed.

Lemma hex4_unicode_escape c :
  c < 65536 ->
  hex4 (hexdigit (c / 4096 mod 16)) (hexdigit (c / 256 mod 16))
       (hexdigit (c / 16 mod 16)) (hexdigit (c mod 16)) = Some c.
Proof.
  intros Hc. unfold hex4.
  rewrite !unhex_hexdigit by (apply N.mod_lt; lia).
  f_equal. lia.
Qed.

Lemma parse_chars_unicode_escape c rest :
  c < 65536 ->
  parse_chars (unicode_escape c ++ rest) = cons_char c (parse_chars rest).
Proof.
  intros Hc. unfold unicode_escape. cbn [app parse_chars].
  change (92 =? 34) with false. change (92 =? 92) with true.
  change (117 =? 117) with true. cbv iota.
  now rewrite hex4_unicode_escape.
Qed.

Lemma parse_chars_plain c rest :
  c <> 34 -> c <> 92 -> 32 <= c ->
  parse_chars (c :: rest) = cons_char c (parse_chars rest).
Proof.
  intros. cbn [parse_chars]. cases_N; try lia. reflexivity.
Qed.

Lemma parse_chars_quote_unit c rest :
  parse_chars (quote_unit c ++ rest) = cons_char c (parse_chars rest).
Proof.
  unfold quote_unit, is_high, is_low.
  cases_N; subst; try reflexivity; simpl orb; cbv iota;
    try (apply parse_chars_unicode_escape; lia);
    apply parse_chars_plain; lia.
Qed.

Lemma parse_chars_pair c d rest :
  is_high c = true -> is_low d = true ->
  parse_chars (c :: d :: rest) = cons_char c (cons_char d (parse_chars rest)).
Proof.
  unfold is_high, is_low. intros Hc Hd.
  apply andb_prop in Hc as [Hc1 Hc2]. apply andb_prop in Hd as [Hd1 Hd2].
  apply N.leb_le in Hc1, Hc2, Hd1, Hd2.
  rewrite !parse_chars_plain by lia. reflexivity.
Qed.

(** The parser reads back every string that QuoteJSONString wrote, up to
    its closing quote. *)
Lemma parse_chars_quote_units_le n : forall s rest,
  (length s <= n)%nat ->
  parse_chars (quote_units s ++ 34 :: rest) = Some (s, rest).
Proof.
  induction n as [|n IH]; intros s rest Hlen.
  - destruct s; [reflexivity | simpl in Hlen; lia].
  - destruct s as [|c s']; [reflexivity|].
    simpl in Hlen. cbn [quote_units].
    destruct (is_high c) eqn:Hc.
    + destruct s' as [|d s''].
      * rewrite parse_chars_quote_unit. reflexivity.
      * destruct (is_low d) eqn:Hd.
        -- cbn [app]. rewrite parse_chars_pair by assumption.
           simpl in Hlen. rewrite IH by lia. reflexivity.
        -- rewrite <- app_assoc, parse_chars_quote_unit, IH by lia.
           reflexivity.
    + rewrite <- app_assoc, parse_chars_quote_unit, IH by lia. reflexivity.
Qed.

Lemma parse_chars_quote_units s rest :
  parse_chars (quote_units s ++ 34 :: rest) = Some (s, rest).
Proof. apply (parse_chars_quote_units_le (length s)). lia. Qed.

Lemma parse_value_string fuel v rest :
  parse_value (S fuel) (quote v ++ rest) = Ok (JStr v, rest).
Proof.
  unfold quote. cbn [app parse_value skip_ws].
  change (is_ws 34) with false. change (34 =? 34) with true. cbv iota.
  rewrite <- app_assoc. cbn [app].
  now rewrite parse_chars_quote_units.
Qed.

(** One member [k:v] with a string value, followed by [d], a comma or the
    closing brace. *)
Lemma parse_members_step fuel acc k v d rest :
  is_ws d = false ->
  parse_members (S (S fuel)) acc (quote k ++ 58 :: quote v ++ d :: rest) =
    if d =? 44 then parse_members (S fuel) (obj_set k (JStr v) acc) rest
    else if d =? 125 then Ok (JObj (obj_set k (JStr v) acc), rest)
    else Malformed.
Proof.
  intros Hd. unfold quote at 1. cbn [app parse_members skip_ws].
  change (is_ws 34) with false. change (34 =? 34) with true. cbv iota.
  rewrite <- app_assoc. cbn [app]. rewrite parse_chars_quote_units.
  cbn [skip_ws]. change (is_ws 58) with false.
  change (58 =? 58) with true. cbv iota.
  rewrite parse_value_string. cbn [skip_ws]. rewrite Hd. reflexivity.
Qed.

Lemma parse_members_strings ps : forall fuel acc rest,
  all_strings ps -> ps <> [] -> (length ps < fuel)%nat ->
  parse_members fuel acc (members stringify ps ++ 125 :: rest) =
    Ok (JObj (create_all ps acc), rest).
Proof.
  induction ps as [|[k x] ps IH]; intros fuel acc rest Hall Hne Hfuel;
    [congruence|].
  apply Forall_cons in Hall as [[v Hv] Hall]. simpl in Hv. subst x.
  destruct fuel as [|[|fuel]]; simpl in Hfuel; try lia.
  destruct ps as [|p ps].
  - cbn [members stringify app]. rewrite <- app_assoc. cbn [app].
    rewrite parse_members_step by reflexivity. reflexivity.
  - change (members stringify ((k, JStr v) :: p :: ps))
      with (quote k ++ 58 :: quote v ++ 44 :: members stringify (p :: ps)).
    repeat (rewrite <- app_assoc; cbn [app]).
    rewrite parse_members_step by reflexivity.
    change (44 =? 44) with true. cbv iota.
    rewrite IH; [reflexivity | assumption | discriminate | simpl in *; lia].
Qed.

Lemma length_members ps :
  (length ps <= length (members stringify ps))%nat.
Proof.
  induction ps as [|[k x] [|p ps] IH]; [simpl; lia | |].
  - cbn [members]. unfold quote. rewrite length_app. simpl. lia.
  - change (members stringify ((k, x) :: p :: ps))
      with (quote k ++ 58 :: stringify x ++ 44 :: members stringify (p :: ps)).
    rewrite length_app. cbn [length]. rewrite length_app. cbn [length].
    change (length (p :: ps)) with (S (length ps)) in *. lia.
Qed.

Lemma members_head ps :
  ps <> [] -> exists t, members stringify ps = 34 :: t.
Proof.
  destruct ps as [|[k x] [|p ps]]; [congruence | |]; intros _;
    unfold members, quote; cbn [app]; eauto.
Qed.

(** [JSON.parse(JSON.stringify(o))] for an object [o] whose properties
    are all strings: the properties come back, created in order. *)
Lemma JSON_parse_stringify_strings ps :
  all_strings ps ->
  JSON_parse (stringify (JObj ps)) = Some (JObj (create_all ps [])).
Proof.
  intros Hall. unfold JSON_parse, parse_text.
  destruct ps as [|p ps]; [reflexivity|].
  cbn [stringify].
  destruct (members_head (p :: ps)) as [t Ht]; [discriminate|].
  pose proof (length_members (p :: ps)) as Hlen.
  set (text := 123 :: members stringify (p :: ps) ++ [125]).
  replace (2 * length text + 1)%nat with (S (2 * length text)) by lia.
  assert (Hfuel : (length (p :: ps) < 2 * length text)%nat).
  { subst text. cbn [length]. rewrite length_app. cbn [length] in *. lia. }
  unfold text at 2. cbn [parse_value skip_ws]. change (is_ws 123) with false. cbv iota.
  change (123 =? 34) with false. change (123 =? 91) with false.
  change (123 =? 123) with true. cbv iota.
  rewrite Ht at 1. cbn [app skip_ws]. change (is_ws 34) with false.
  cbv iota. change (34 =? 125) with false. cbv iota.
  now rewrite parse_members_strings.
Qed.

(** *** The parser never runs out of fuel *)

Lemma skip_ws_length s t : skip_ws s = t -> (length t <= length s)%nat.
Proof.
  intros <-. induction s as [|c s IH]; [reflexivity|].
  cbn [skip_ws]. destruct (is_ws c); cbn [length]; lia.
Qed.

Lemma cons_char_Some c o x r :
  cons_char c o = Some (x, r) -> exists x', o = Some (x', r).
Proof. destruct o as [[x' r']|]; [|discriminate]. intros [= _ <-]. eauto. Qed.

Lemma parse_chars_length_le n : forall s x r,
  (length s <= n)%nat -> parse_chars s = Some (x, r) ->
  (length r < length s)%nat.
Proof.
  induction n as [|n IH]; intros s x r Hn H.
  - destruct s; [discriminate | simpl in Hn; lia].
  - destruct s as [|c s]; [discriminate|].
    cbn [parse_chars] in H. cbn [length] in *.
    destruct (c =? 34); [injection H as _ <-; lia|].
    destruct (c =? 92).
    + destruct s as [|e s]; [discriminate|]. cbn [length] in *.
      destruct (e =? 117).
      * destruct s as [|h1 [|h2 [|h3 [|h4 s]]]]; try discriminate.
        destruct (hex4 h1 h2 h3 h4); [|discriminate].
        apply cons_char_Some in H as [x' H]. cbn [length] in *.
        apply IH in H; lia.
      * destruct (unescape e); [|discriminate].
        apply cons_char_Some in H as [x' H]. apply IH in H; lia.
    + destruct (c <? 32); [discriminate|].
      apply cons_char_Some in H as [x' H]. apply IH in H; lia.
Qed.

Lemma parse_chars_length s x r :
  parse_chars s = Some (x, r) -> (length r < length s)%nat.
Proof. apply (parse_chars_length_le (length s)). lia. Qed.

Lemma strip_prefix_length p : forall s r,
  strip_prefix p s = Some r -> (length r + length p = length s)%nat.
Proof.
  induction p as [|a p IH]; intros s r H.
  - injection H as <-. simpl. lia.
  - destruct s as [|b s]; [discriminate|]. cbn [strip_prefix] in H.
    destruct (a =? b); [|discriminate]. apply IH in H. simpl. lia.
Qed.

Lemma digits_length s ds r :
  digits s = (ds, r) -> (length r <= length s)%nat.
Proof.
  revert ds r. induction s as [|c s IH]; intros ds r H.
  - injection H as _ <-. reflexivity.
  - cbn [digits] in H. destruct (is_digit c).
    + destruct (digits s) as [ds' r'] eqn:E. injection H as _ <-.
      specialize (IH _ _ eq_refl). simpl. lia.
    + injection H as _ <-. lia.
Qed.

Lemma lex_int_length s i r :
  lex_int s = Some (i, r) -> (length r < length s)%nat.
Proof.
  destruct s as [|c s]; [discriminate|]. cbn [lex_int].
  destruct (c =? 48); [intros [= _ <-]; simpl; lia|].
  destruct (is_digit c); [|discriminate].
  destruct (digits s) as [ds r'] eqn:E. intros [= _ <-].
  apply digits_length in E. simpl. lia.
Qed.

Lemma lex_frac_length s f r :
  lex_frac s = Some (f, r) -> (length r <= length s)%nat.
Proof.
  destruct s as [|c s]; [intros [= _ <-]; reflexivity|]. cbn [lex_frac].
  destruct (c =? 46); [|intros [= _ <-]; lia].
  destruct (digits s) as [[|d ds] r'] eqn:E; [discriminate|].
  intros [= _ <-]. apply digits_length in E. simpl. lia.
Qed.

Lemma lex_exp_length s e r :
  lex_exp s = Some (e, r) -> (length r <= length s)%nat.
Proof.
  destruct s as [|c s]; [intros [= _ <-]; reflexivity|]. cbn [lex_exp].
  destruct ((c =? 101) || (c =? 69)); [|intros [= _ <-]; lia].
  destruct s as [|d s].
  - cbn [digits]. discriminate.
  - destruct ((d =? 43) || (d =? 45)).
    + destruct (digits s) as [[|x ds] r'] eqn:E; [discriminate|].
      intros [= _ <-]. apply digits_length in E. simpl. lia.
    + destruct (digits (d :: s)) as [[|x ds] r'] eqn:E; [discriminate|].
      intros [= _ <-]. apply digits_length in E. simpl in *. lia.
Qed.

Lemma lex_number_length s lx r :
  lex_number s = Some (lx, r) -> (length r < length s)%nat.
Proof.
  unfold lex_number.
  set (head := match s with
               | c :: r0 => if c =? 45 then ([45], r0) else ([], s)
               | [] => ([], s)
               end).
  assert (Hhead : (length head.2 <= length s)%nat).
  { subst head. destruct s as [|c s]; [reflexivity|].
    destruct (c =? 45); simpl; lia. }
  destruct head as [sign s1]. cbn [snd] in Hhead.
  destruct (lex_int s1) as [[i s2]|] eqn:E1; [|discriminate].
  destruct (lex_frac s2) as [[f s3]|] eqn:E2; [|discriminate].
  destruct (lex_exp s3) as [[e s4]|] eqn:E3; [|discriminate].
  intros [= _ <-].
  apply lex_int_length in E1. apply lex_frac_length in E2.
  apply lex_exp_length in E3. lia.
Qed.

Ltac break_in H :=
  repeat match type of H with
    | context [match ?x with _ => _ end] => destruct x eqn:?
    end.

Ltac length_facts :=
  repeat match goal with
    | H : skip_ws _ = _ |- _ => apply skip_ws_length in H
    | H : parse_chars _ = Some _ |- _ => apply parse_chars_length in H
    | H : strip_prefix _ _ = Some _ |- _ =>
        apply strip_prefix_length in H; simpl in H
    | H : lex_number _ = Some _ |- _ => apply lex_number_length in H
    end;
  cbn [length] in *.

(** Whatever the parser reads, it leaves less than it was given. *)
Lemma parse_consumes fuel :
  consumes (parse_value fuel) /\
  (forall acc, consumes (parse_elements fuel acc)) /\
  (forall acc, consumes (parse_members fuel acc)).
Proof.
  induction fuel as [|fuel (IHv & IHe & IHm)];
    [repeat split; intros; intros ? ? ?; discriminate|].
  repeat split.
  - intros s v r H. cbn [parse_value] in H. break_in H;
      try discriminate; try injection H as <- <-; subst;
      try (apply IHe in H); try (apply IHm in H);
      length_facts; lia.
  - intros acc s v r H. cbn [parse_elements] in H. break_in H;
      try discriminate; try injection H as <- <-; subst;
      try (apply IHe in H);
      repeat match goal with
        | E : parse_value _ _ = Ok _ |- _ => apply IHv in E
        end;
      length_facts; lia.
  - intros acc s v r H. cbn [parse_members] in H. break_in H;
      try discriminate; try injection H as <- <-; subst;
      try (apply IHm in H);
      repeat match goal with
        | E : parse_value _ _ = Ok _ |- _ => apply IHv in E
        end;
      length_facts; lia.
Qed.

Ltac break_goal :=
  repeat match goal with
    | |- context [match ?x with _ => _ end] => destruct x eqn:?
    end.

Ltac consumed :=
  repeat match goal with
    | E : parse_value ?f _ = Ok _ |- _ =>
        apply (proj1 (parse_consumes f)) in E
    end.

(** Two units of fuel for every character, and one or two more, are
    enough: every call reads at least one character within two calls. *)
Lemma parse_fuel fuel :
  (forall s, (2 * length s + 1 <= fuel)%nat ->
             parse_value fuel s <> OutOfFuel) /\
  (forall acc s, (2 * length s + 2 <= fuel)%nat ->
                 parse_elements fuel acc s <> OutOfFuel) /\
  (forall acc s, (2 * length s + 2 <= fuel)%nat ->
                 parse_members fuel acc s <> OutOfFuel).
Proof.
  induction fuel as [|fuel (IHv & IHe & IHm)];
    [repeat split; intros; lia|].
  repeat split.
  - intros s Hs. cbn [parse_value]. break_goal; try discriminate;
      [apply IHe | apply IHm]; length_facts; lia.
  - intros acc s Hs. cbn [parse_elements].
    destruct (parse_value fuel s) as [[v r]| |] eqn:E;
      [| discriminate | exfalso; apply (IHv s); [lia | assumption]].
    break_goal; try discriminate.
    apply IHe. consumed. length_facts. lia.
  - intros acc s Hs. cbn [parse_members].
    destruct (skip_ws s) as [|q r0] eqn:E0; [discriminate|].
    destruct (q =? 34); [|discriminate].
    destruct (parse_chars r0) as [[k r1]|] eqn:E1; [|discriminate].
    destruct (skip_ws r1) as [|colon r2] eqn:E2; [discriminate|].
    destruct (colon =? 58); [|discriminate].
    length_facts.
    destruct (parse_value fuel r2) as [[v r3]| |] eqn:E;
      [| discriminate | exfalso; apply (IHv r2); [lia | assumption]].
    break_goal; try discriminate.
    apply IHm. consumed. length_facts. lia.
Qed.

(** [JSON.parse] throws exactly when the text is not JSON: the model never
    gives up for lack of fuel. *)
Lemma parse_text_total s : parse_text s <> OutOfFuel.
Proof.
  unfold parse_text.
  destruct (parse_value (2 * length s + 1) s) as [[v r]| |] eqn:E.
  - destruct (skip_ws r); discriminate.
  - discriminate.
  - exfalso. revert E. apply parse_fuel. lia.
Qed.

Lemma JSON_parse_None s : JSON_parse s = None <-> parse_text s = Malformed.
Proof.
  unfold JSON_parse. pose proof (parse_text_total s).
  destruct (parse_text s); split; congruence.
Qed.

(** *** Parsed objects have each key once *)

Lemma obj_get_None k ps : obj_get k ps = None <-> k ∉ map fst ps.
Proof.
  induction ps as [|[k' v] ps IH]; cbn [obj_get map fst].
  - split; [intros _; apply not_elem_of_nil | reflexivity].
  - rewrite not_elem_of_cons. destruct (decide (k = k')); [|tauto].
    split; [discriminate | tauto].
Qed.

Lemma keys_obj_replace k v ps : map fst (obj_replace k v ps) = map fst ps.
Proof.
  induction ps as [|[k' v'] ps IH]; [reflexivity|]. cbn [obj_replace].
  destruct (decide (k = k')); cbn [map fst]; congruence.
Qed.

Lemma keys_obj_add_index i k v ps :
  map fst (obj_add_index i k v ps) ≡ₚ k :: map fst ps.
Proof.
  induction ps as [|[k' v'] ps IH]; [reflexivity|]. cbn [obj_add_index].
  destruct (array_index k') as [j|]; [|reflexivity].
  destruct (j <? i); [|reflexivity].
  cbn [map fst]. rewrite IH. apply Permutation_swap.
Qed.

Lemma obj_set_NoDup k v ps :
  NoDup (map fst ps) -> NoDup (map fst (obj_set k v ps)).
Proof.
  intros Hnd. unfold obj_set. destruct (obj_get k ps) eqn:E.
  - now rewrite keys_obj_replace.
  - apply obj_get_None in E. destruct (array_index k).
    + rewrite keys_obj_add_index. now apply NoDup_cons.
    + rewrite map_app. cbn [map fst].
      apply NoDup_app. repeat split; [assumption | | apply NoDup_singleton].
      intros x Hx ->%list_elem_of_singleton. contradiction.
Qed.

Lemma parse_members_NoDup fuel : forall acc s v r,
  NoDup (map fst acc) -> parse_members fuel acc s = Ok (v, r) ->
  exists props, v = JObj props /\ NoDup (map fst props).
Proof.
  induction fuel as [|fuel IH]; intros acc s v r Hacc H; [discriminate|].
  cbn [parse_members] in H. break_in H; try discriminate.
  - eapply IH; [|exact H]. now apply obj_set_NoDup.
  - injection H as <- <-. eexists. split; [reflexivity|].
    now apply obj_set_NoDup.
Qed.

Lemma parse_elements_JArr fuel : forall acc s v r,
  parse_elements fuel acc s = Ok (v, r) -> exists items, v = JArr items.
Proof.
  induction fuel as [|fuel IH]; intros acc s v r H; [discriminate|].
  cbn [parse_elements] in H. break_in H; try discriminate.
  - eapply IH, H.
  - injection H as <- <-. eauto.
Qed.

Lemma parse_value_NoDup fuel s props r :
  parse_value fuel s = Ok (JObj props, r) -> NoDup (map fst props).
Proof.
  destruct fuel as [|fuel]; [discriminate|]. cbn [parse_value].
  intros H. break_in H; try discriminate.
  - apply parse_elements_JArr in H as [items [=]].
  - injection H as <- <-. constructor.
  - apply parse_members_NoDup in H as (props' & [= ->] & Hnd);
      [assumption | constructor].
Qed.

Lemma JSON_parse_NoDup s props :
  JSON_parse s = Some (JObj props) -> NoDup (map fst props).
Proof.
  unfold JSON_parse, parse_text.
  destruct (parse_value _ s) as [[v r]| |] eqn:E; try discriminate.
  destruct (skip_ws r); [|discriminate]. intros [= ->].
  now apply parse_value_NoDup in E.
Qed.
(** *** Numbers *)

Lemma pow2_pos u : 0 < 2 ^ u.
Proof. apply N.neq_0_lt_0, N.pow_nonzero. discriminate. Qed.

(** [2^fl <= a / b], in a form free of signs: for any [u - v = fl],
    [b * 2^u <= a * 2^v]. *)
Lemma floor_log2_lower a b u v :
  0 < a -> 0 < b ->
  (Z.of_N u - Z.of_N v = floor_log2 (a, b))%Z ->
  b * 2 ^ u <= a * 2 ^ v.
Proof.
  intros Ha Hb. unfold floor_log2. cbn [fst snd].
  set (la := N.log2 a). set (lb := N.log2 b).
  destruct (N.log2_spec a Ha) as [Hla _]. fold la in Hla.
  destruct (N.log2_spec b Hb) as [_ Hlb]. fold lb in Hlb.
  unfold scale2. cbn [fst snd].
  destruct (Z.leb_spec 0 (- (Z.of_N la - Z.of_N lb))) as [Hd|Hd].
  - (* la <= lb *)
    replace (Z.to_N (- (Z.of_N la - Z.of_N lb))) with (lb - la) by lia.
    destruct (N.leb_spec b (a * 2 ^ (lb - la))) as [Hc|Hc]; intros Huv.
    + replace v with (u + (lb - la)) by lia.
      rewrite N.pow_add_r. pose proof (pow2_pos u). nia.
    + assert (Hs : u + (lb + 1) = v + la) by lia.
      assert (b * 2 ^ u < 2 ^ (v + la)).
      { rewrite <- Hs, N.pow_add_r. pose proof (pow2_pos u). nia. }
      rewrite N.pow_add_r in H. pose proof (pow2_pos v). nia.
  - (* lb < la *)
    replace (Z.to_N (- - (Z.of_N la - Z.of_N lb))) with (la - lb) by lia.
    destruct (N.leb_spec (b * 2 ^ (la - lb)) a) as [Hc|Hc]; intros Huv.
    + replace u with (v + (la - lb)) by lia.
      rewrite N.pow_add_r. pose proof (pow2_pos v). nia.
    + assert (Hs : u + (lb + 1) = v + la) by lia.
      assert (b * 2 ^ u < 2 ^ (v + la)).
      { rewrite <- Hs, N.pow_add_r. pose proof (pow2_pos u). nia. }
      rewrite N.pow_add_r in H. pose proof (pow2_pos v). nia.
Qed.

Lemma round_half_even_zero a b :
  0 < b -> (round_half_even a b = 0 <-> 2 * a <= b).
Proof.
  intros Hb. unfold round_half_even.
  assert (Hdm : a = b * (a / b) + a mod b) by (apply N.div_mod; lia).
  assert (Hm : a mod b < b) by (apply N.mod_lt; lia).
  destruct (N.eq_dec (a / b) 0) as [Hq|Hq].
  - rewrite Hq in *. change (N.odd 0) with false. rewrite andb_false_r, orb_false_r.
    destruct (N.ltb_spec b (2 * (a mod b))); split; intros; lia.
  - destruct (_ || _); split; intros; nia.
Qed.

(** A fraction gives the Number zero exactly when it is at most
    [2^-1075], half the least positive Number. *)
Lemma round_double_zero a b :
  0 < b -> (round_double (a, b) = MZero <-> a * 2 ^ 1075 <= b).
Proof.
  intros Hb. unfold round_double. cbn [fst].
  destruct (N.eqb_spec a 0) as [->|Ha]; [split; [lia | reflexivity]|].
  assert (Ha' : 0 < a) by lia.
  set (fl := floor_log2 (a, b)).
  pose proof (floor_log2_lower a b) as Hfl. fold fl in Hfl.
  destruct (Z.max_spec (fl - 52) (-1074)) as [[Hlt ->]|[Hge ->]].
  - (* subnormal range: the exponent is -1074 *)
    unfold scale2. cbn [fst snd].
    change (0 <=? - -1074)%Z with true. cbv iota.
    change (Z.to_N (- -1074)) with 1074.
    replace (2 ^ 1075) with (2 * 2 ^ 1074) by reflexivity.
    set (P := 2 ^ 1074) in *.
    destruct (round_half_even_zero (a * P) b Hb) as [H1 H2].
    destruct (N.eqb_spec (round_half_even (a * P) b) (2 ^ 53)) as [E|E].
    + change (2 ^ 52 =? 0) with false. cbv iota.
      split; [destruct (971 <? _)%Z; discriminate|].
      intros H. rewrite H2 in E by lia. discriminate.
    + destruct (N.eqb_spec (round_half_even (a * P) b) 0) as [Z0|Z0].
      * split; [intros _; specialize (H1 Z0); lia | reflexivity].
      * split; [destruct (971 <? _)%Z; discriminate|].
        intros H. exfalso. apply Z0, H2. lia.
  - (* normal range: at least 2^52 after scaling, never zero *)
    assert (Hbig : b < a * 2 ^ 1075).
    { specialize (Hfl (Z.to_N (fl + 1075)) 1075 Ha' Hb ltac:(lia)).
      assert (2 <= 2 ^ Z.to_N (fl + 1075)).
      { change 2 with (2 ^ 1) at 1. apply N.pow_le_mono_r; lia. }
      nia. }
    assert (Hscaled : forall a1 b1, scale2 (a, b) (- (fl - 52)) = (a1, b1) ->
                                    0 < b1 /\ b1 * 2 ^ 52 <= a1).
    { intros a1 b1. unfold scale2. cbn [fst snd].
      destruct (Z.leb_spec 0 (- (fl - 52))) as [Hs|Hs]; intros [= <- <-].
      - split; [assumption|].
        apply (Hfl 52 (Z.to_N (- (fl - 52))) Ha' Hb). lia.
      - split; [pose proof (pow2_pos (Z.to_N (- - (fl - 52)))); nia|].
        rewrite <- N.mul_assoc, <- N.pow_add_r.
        specialize (Hfl (Z.to_N (- - (fl - 52)) + 52) 0 Ha' Hb ltac:(lia)).
        now rewrite N.pow_0_r, N.mul_1_r in Hfl. }
    destruct (scale2 (a, b) (- (fl - 52))) as [a1 b1] eqn:Es.
    destruct (Hscaled a1 b1 eq_refl) as [Hb1 Ha1].
    assert (Hnz : round_half_even a1 b1 <> 0).
    { intros H%round_half_even_zero; [|assumption].
      assert (2 <= 2 ^ 52) by (change 2 with (2 ^ 1) at 1; apply N.pow_le_mono_r; lia).
      nia. }
    split; [|lia].
    destruct (N.eqb_spec (round_half_even a1 b1) (2 ^ 53)).
    + change (2 ^ 52 =? 0) with false. cbv iota.
      destruct (971 <? _)%Z; discriminate.
    + destruct (N.eqb_spec (round_half_even a1 b1) 0); [contradiction|].
      destruct (971 <? _)%Z; discriminate.
Qed.

Lemma round_double_finite q m e : round_double q = MFinite m e -> m <> 0.
Proof.
  unfold round_double. destruct (q.1 =? 0); [discriminate|].
  destruct (scale2 q _) as [a b].
  destruct (round_half_even a b =? 2 ^ 53).
  - change (2 ^ 52 =? 0) with false. cbv iota.
    destruct (971 <? _)%Z; [discriminate|]. intros [= <- _]. discriminate.
  - destruct (N.eqb_spec (round_half_even a b) 0); [discriminate|].
    destruct (971 <? _)%Z; [discriminate|]. now intros [= <- _].
Qed.

(** ToBoolean of a parsed number: false exactly when the literal denotes
    at most [2^-1075], so also for a literal that is not written as zero
    but rounds to it. *)
Lemma truthy_number lexeme :
  truthy (JNum (number_of lexeme).1 (number_of lexeme).2) = false <->
  (scale10 ((literal_parts lexeme).1.2, 1) (literal_parts lexeme).2).1
    * 2 ^ 1075
  <= (scale10 ((literal_parts lexeme).1.2, 1) (literal_parts lexeme).2).2.
Proof.
  unfold number_of. destruct (literal_parts lexeme) as [[neg digs] p].
  cbn [fst snd truthy].
  set (q := scale10 (digs, 1) p).
  assert (Hq : 0 < q.2).
  { subst q. unfold scale10. cbn [fst snd].
    destruct (0 <=? p)%Z; cbn [snd]; [lia|].
    rewrite N.mul_1_l. apply N.neq_0_lt_0, N.pow_nonzero. discriminate. }
  destruct q as [a b]. cbn [fst snd] in *.
  rewrite <- (round_double_zero a b Hq).
  destruct (round_double (a, b)) as [|m e|] eqn:E; [tauto| |split; discriminate].
  apply round_double_finite in E. apply N.eqb_neq in E. rewrite E.
  split; discriminate.
Qed.

Example number_underflow_is_falsy :
  truthy <$> JSON_parse (js "1e-400") = Some false /\
  truthy <$> JSON_parse (js "5e-324") = Some true /\
  truthy <$> JSON_parse (js "-0.0") = Some false.
Proof. vm_compute. repeat split. Qed.

Example numbers_are_printed_normalised :
  stringify <$> JSON_parse (js "1.0") = Some (js "1") /\
  stringify <$> JSON_parse (js "-0") = Some (js "0") /\
  stringify <$> JSON_parse (js "1e400") = Some (js "null") /\
  stringify <$> JSON_parse (js "1e21") = Some (js "1e+21") /\
  stringify <$> JSON_parse (js "0.0000001") = Some (js "1e-7") /\
  stringify <$> JSON_parse (js "0.1") = Some (js "0.1") /\
  stringify <$> JSON_parse (js "9007199254740993") =
    Some (js "9007199254740992").
Proof. vm_compute. repeat split. Qed.

End JSONFacts.

(** ** The page *)

Module PageFacts.
Import JS JSON Page JSONFacts.

Lemma key_inj f g : key f = key g -> f = g.
Proof. destruct f, g; intros H; try reflexivity; vm_compute in H; discriminate. Qed.

Lemma key_ne f g : f <> g -> key f <> key g.
Proof. intros Hne H. apply Hne, key_inj, H. Qed.

(** *** Editing *)

(** C5. Typing into the input of attribute [f] sets that attribute of the
    in-memory profile to the typed string and nothing else: every other
    property, in particular the other four attributes, keeps its value;
    the edit mode, the mutation, local storage, the network, the toasts
    and the console are untouched; and while the form is shown the event
    always goes through. *)
Theorem onChange_frame (p : Props) (f : Field) (value : list N) (w : World) :
  let w' := onChange f value w in
  profile w' !! key f = Some (JStr value) /\
  (forall g : Field, g <> f -> profile w' !! key g = profile w !! key g) /\
  (forall k : list N, k <> key f -> profile w' !! k = profile w !! k) /\
  isEditing w' = isEditing w /\
  mutation w' = mutation w /\
  localStorage w' = localStorage w /\
  network w' = network w /\
  toasts w' = toasts w /\
  console w' = console w /\
  invalidated w' = invalidated w /\
  (loading p = false -> isEditing w = true ->
   step p w (Change f value) = Some w').
Proof.
  cbn. repeat split.
  - apply lookup_insert_eq.
  - intros g Hg. apply lookup_insert_ne. intros H. apply Hg. symmetry.
    now apply key_inj.
  - intros k Hk. apply lookup_insert_ne. congruence.
  - intros -> ->. reflexivity.
Qed.

Lemma onChange_frame_witness :
  profile (onChange name (js "Sara") (setIsEditing true (initial open_storage)))
    !! key phone = Some (JStr []) /\
  step guest (setIsEditing true (initial open_storage))
       (Change name (js "Sara")) =
    Some (onChange name (js "Sara") (setIsEditing true (initial open_storage))).
Proof.
  destruct (onChange_frame guest name (js "Sara")
              (setIsEditing true (initial open_storage)))
    as (_ & Hother & _ & _ & _ & _ & _ & _ & _ & _ & Hstep).
  split.
  - rewrite (Hother phone); [reflexivity | discriminate].
  - apply Hstep; reflexivity.
Defined.

(** C1, as the page has it. Cancelling after an edit leaves the form (the
    page is back in viewing mode) and persists nothing: no request is
    sent, local storage is as it was, the mutation is not started and no
    toast is shown. The in-memory profile keeps the edited value. *)
Theorem cancel_keeps_edits (p : Props) (f : Field) (value : list N)
  (w : World) :
  loading p = false -> isEditing w = true ->
  exists w',
    run p w [Change f value; ClickCancel] = Some w' /\
    isEditing w' = false /\
    profile w' = <[key f := JStr value]> (profile w) /\
    localStorage w' = localStorage w /\
    network w' = network w /\
    mutation w' = mutation w /\
    toasts w' = toasts w.
Proof.
  intros Hl He. eexists. split.
  - cbn [run step]. rewrite Hl, He. cbn. rewrite He. reflexivity.
  - repeat split.
Qed.

Lemma cancel_keeps_edits_witness :
  exists w',
    run omar (setIsEditing true (mount omar open_storage))
        [Change name (js "Omar B"); ClickCancel] = Some w' /\
    isEditing w' = false /\
    profile w' = <[key name := JStr (js "Omar B")]>
                   (profile (setIsEditing true (mount omar open_storage))) /\
    localStorage w' = localStorage (setIsEditing true (mount omar open_storage)) /\
    network w' = network (setIsEditing true (mount omar open_storage)) /\
    mutation w' = mutation (setIsEditing true (mount omar open_storage)) /\
    toasts w' = toasts (setIsEditing true (mount omar open_storage)).
Proof. apply (cancel_keeps_edits omar name (js "Omar B")); reflexivity. Defined.

(** C1 fails as stated: with the fetched name Omar on screen, editing the
    name and cancelling leaves the edited name in memory, not the fetched
    one. *)
Lemma cancel_restores_counterexample :
  exists w',
    run omar (mount omar open_storage)
        [ClickEdit; Change name (js "Omar B"); ClickCancel] = Some w' /\
    isEditing w' = false /\
    profile (mount omar open_storage) !! key name = Some (JStr (js "Omar")) /\
    profile w' !! key name = Some (JStr (js "Omar B")) /\
    profile w' <> profile (mount omar open_storage).
Proof.
  eexists. split; [reflexivity|]. split; [reflexivity|].
  split; [reflexivity|]. split; [reflexivity|].
  intros H. apply (f_equal (fun m => m !! key name)) in H.
  vm_compute in H. discriminate.
Qed.

(** *** Saving *)

Lemma isGuestMode_true p :
  isGuestMode p = true <->
  isAuthenticated p = false \/ truthy_str (userId p) = false.
Proof.
  unfold isGuestMode.
  destruct (isAuthenticated p), (truthy_str (userId p)); cbn; intuition.
Qed.

Lemma isGuestMode_false p :
  isGuestMode p = false <->
  isAuthenticated p = true /\ truthy_str (userId p) = true.
Proof.
  unfold isGuestMode.
  destruct (isAuthenticated p), (truthy_str (userId p)); cbn;
    intuition congruence.
Qed.

Lemma mutationFn_signed_in p d :
  isGuestMode p = false ->
  mutationFn p d = inr {| method := js "PUT";
                          url := js "/api/users/" ++ template (userId p);
                          data := d |}.
Proof.
  intros [_ Hid]%isGuestMode_false. unfold mutationFn. now rewrite Hid.
Qed.

Lemma handleSave_guest p w :
  isGuestMode p = true -> handleSave p w = handleGuestSave w.
Proof. unfold handleSave. now intros ->. Qed.

Lemma handleSave_signed_in p w :
  isGuestMode p = false ->
  handleSave p w =
    set_mutation (Pending (inr (put_request p w))) (send (put_request p w) w).
Proof.
  intros Hg. unfold handleSave, mutate. rewrite Hg.
  now rewrite mutationFn_signed_in.
Qed.

(** C3. A save goes to exactly one backend; a userId counts as present
    when it passes the page's own test [!!userId]. Without an authenticated
    session, or without a userId, it sends no request and does not start
    the mutation; in local storage it touches the item [guest_profile]
    only, which takes the serialized profile when the browser accepts the
    write. With an authenticated session and a userId it leaves local
    storage as it was and sends one request, the PUT of the five
    attributes to the account's URL. *)
Theorem handleSave_dispatch (p : Props) (w : World) :
  (isAuthenticated p = false \/ truthy_str (userId p) = false ->
     network (handleSave p w) = network w /\
     mutation (handleSave p w) = mutation w /\
     (forall k, k <> js "guest_profile" ->
        getItem k (localStorage (handleSave p w)) =
          getItem k (localStorage w)) /\
     (accepts (localStorage w) (js "guest_profile")
              (JSON_stringify (profileData w)) = true ->
        getItem (js "guest_profile") (localStorage (handleSave p w)) =
          Some (JSON_stringify (profileData w)))) /\
  (isAuthenticated p = true /\ truthy_str (userId p) = true ->
     localStorage (handleSave p w) = localStorage w /\
     network (handleSave p w) = network w ++ [put_request p w]).
Proof.
  split.
  - intros Hg%isGuestMode_true. rewrite handleSave_guest by assumption.
    unfold handleGuestSave, setItem.
    destruct (accepts _ _ _); cbn; repeat split; try done.
    + intros k Hk. unfold getItem. cbn. now apply lookup_insert_ne.
    + intros _. unfold getItem. cbn. apply lookup_insert_eq.
  - intros Hs%isGuestMode_false. now rewrite handleSave_signed_in.
Qed.

Lemma handleSave_dispatch_witness :
  (network (handleSave guest (initial open_storage)) = [] /\
   getItem (js "guest_profile")
           (localStorage (handleSave guest (initial open_storage))) =
     Some (JSON_stringify (profileData (initial open_storage)))) /\
  (localStorage (handleSave omar (mount omar open_storage)) = open_storage /\
   network (handleSave omar (mount omar open_storage)) =
     [put_request omar (mount omar open_storage)]).
Proof.
  split.
  - destruct (handleSave_dispatch guest (initial open_storage))
      as [H _].
    destruct H as (Hn & _ & _ & Hs); [left; reflexivity|].
    split; [exact Hn | apply Hs; reflexivity].
  - destruct (handleSave_dispatch omar (mount omar open_storage))
      as [_ H].
    destruct H as (Hl & Hn); [split; reflexivity|].
    split; [exact Hl | exact Hn].
Defined.

(** C4. When the request of a signed-in save fails, the page stays in
    editing mode, the in-memory profile is what it was when the user
    saved, one destructive toast is added, and the save button is enabled
    again: a second save sends the request once more. *)
Theorem save_failure_keeps_edits (p : Props) (w : World) :
  loading p = false -> isGuestMode p = false ->
  isEditing w = true -> isPending w = false ->
  exists w',
    run p w [ClickSave; Settled Rejected] = Some w' /\
    isEditing w' = true /\
    profile w' = profile w /\
    mutation w' = Failed RequestFailed /\
    (exists t, toasts w' = toasts w ++ [t] /\ variant t = Destructive) /\
    localStorage w' = localStorage w /\
    save_disabled p w' = false /\
    exists w'',
      step p w' ClickSave = Some w'' /\
      network w'' = network w' ++ [put_request p w].
Proof.
  intros Hl Hg He Hp. eexists. split.
  - cbn [run step]. unfold save_disabled. rewrite Hl, He, Hg, Hp. cbn.
    rewrite handleSave_signed_in by assumption. cbn. reflexivity.
  - cbn. repeat split; try assumption.
    + eexists. split; reflexivity.
    + unfold save_disabled. rewrite Hg. reflexivity.
    + eexists. split.
      * unfold save_disabled. rewrite Hl, He, Hg. cbn.
        rewrite handleSave_signed_in by assumption. reflexivity.
      * reflexivity.
Qed.

Lemma save_failure_keeps_edits_witness :
  exists w',
    run omar (setIsEditing true (mount omar open_storage))
        [ClickSave; Settled Rejected] = Some w' /\
    isEditing w' = true /\
    profile w' = profile (setIsEditing true (mount omar open_storage)) /\
    mutation w' = Failed RequestFailed /\
    (exists t,
       toasts w' = toasts (setIsEditing true (mount omar open_storage)) ++ [t] /\
       variant t = Destructive) /\
    localStorage w' =
      localStorage (setIsEditing true (mount omar open_storage)) /\
    save_disabled omar w' = false /\
    exists w'',
      step omar w' ClickSave = Some w'' /\
      network w'' =
        network w' ++
          [put_request omar (setIsEditing true (mount omar open_storage))].
Proof. apply (save_failure_keeps_edits omar); reflexivity. Defined.

(** When the browser refuses the write, the guest save shows a destructive
    toast and changes nothing else: the form stays open. *)
Lemma handleGuestSave_refused w :
  accepts (localStorage w) (js "guest_profile")
          (JSON_stringify (profileData w)) = false ->
  exists t,
    handleGuestSave w = toast t w /\ variant t = Destructive.
Proof.
  intros Hacc. unfold handleGuestSave, setItem. rewrite Hacc.
  eexists. split; reflexivity.
Qed.

Example handleGuestSave_full_storage :
  isEditing (handleGuestSave (setIsEditing true (initial full_storage))) = true /\
  getItem (js "guest_profile")
          (localStorage (handleGuestSave (setIsEditing true (initial full_storage))))
    = None.
Proof. split; reflexivity. Qed.

(** *** The guest profile in local storage *)

Lemma profileData_holds w r :
  holds (profile w) r ->
  JSON_stringify (profileData w) = stringify (object_of r).
Proof.
  intros H. unfold JSON_stringify, profileData, object_of.
  cbn [map fields].
  rewrite (H username), (H name), (H phone), (H email), (H address).
  reflexivity.
Qed.

Lemma all_strings_object_of r :
  all_strings (map (fun f => (key f, JStr (field_of r f))) fields).
Proof. repeat constructor; cbn; eauto. Qed.

(** The serialized record parses back to the object it came from. *)
Lemma JSON_parse_object_of r :
  JSON_parse (stringify (object_of r)) = Some (object_of r).
Proof.
  unfold object_of.
  rewrite JSON_parse_stringify_strings by apply all_strings_object_of.
  reflexivity.
Qed.

Lemma spread_object_of prev r : holds (spread prev (object_of r)) r.
Proof.
  unfold spread, object_of. cbn [own_props fold_left map fields fst snd].
  intros f. destruct f; cbn [field_of];
    repeat (rewrite lookup_insert_ne by (apply key_ne; discriminate));
    apply lookup_insert_eq.
Qed.

Lemma handleGuestSave_stores w r :
  holds (profile w) r ->
  accepts (localStorage w) (js "guest_profile")
          (stringify (object_of r)) = true ->
  getItem (js "guest_profile") (localStorage (handleGuestSave w)) =
    Some (stringify (object_of r)).
Proof.
  intros Hr Hacc. unfold handleGuestSave, setItem.
  rewrite (profileData_holds w r Hr), Hacc.
  unfold getItem. cbn [localStorage toast setIsEditing set_localStorage items].
  apply lookup_insert_eq.
Qed.

Lemma guestLoadEffect_object_of p w r :
  isGuestMode p = true ->
  getItem (js "guest_profile") (localStorage w) =
    Some (stringify (object_of r)) ->
  holds (profile (guestLoadEffect p w)) r.
Proof.
  intros Hg Hblob. unfold guestLoadEffect. rewrite Hg, Hblob.
  rewrite JSON_parse_object_of.
  change (truthy_str (Some (stringify (object_of r)))) with true.
  cbv iota. cbn [setProfile profile]. apply spread_object_of.
Qed.

(** C2. Let the in-memory profile carry the record [r] of five strings,
    and let the browser accept the write. After the guest save the item
    [guest_profile] holds a text that parses to the object of [r], and a
    guest load over that storage, from whatever in-memory profile, yields
    a profile that carries [r] again in all five attributes. *)
Theorem guest_save_load_roundtrip (p : Props) (r : ProfileFields)
  (w w' : World) :
  holds (profile w) r ->
  accepts (localStorage w) (js "guest_profile")
          (JSON_stringify (profileData w)) = true ->
  isGuestMode p = true ->
  localStorage w' = localStorage (handleGuestSave w) ->
  (exists blob,
     getItem (js "guest_profile") (localStorage (handleGuestSave w)) =
       Some blob /\
     JSON_parse blob = Some (object_of r)) /\
  holds (profile (guestLoadEffect p w')) r.
Proof.
  intros Hr Hacc Hg Hst.
  rewrite (profileData_holds w r Hr) in Hacc.
  pose proof (handleGuestSave_stores w r Hr Hacc) as Hblob.
  split.
  - eexists. split; [exact Hblob | apply JSON_parse_object_of].
  - apply guestLoadEffect_object_of; [assumption | now rewrite Hst].
Qed.

Lemma guest_save_load_roundtrip_witness :
  holds
    (profile
       (guestLoadEffect guest
          (initial
             (localStorage
                (handleGuestSave
                   (onChange name [83; 34; 10; 55357; 97]
                      (initial open_storage)))))))
    (mkFields [] [83; 34; 10; 55357; 97] [] [] []).
Proof.
  apply (guest_save_load_roundtrip guest
           (mkFields [] [83; 34; 10; 55357; 97] [] [] [])
           (onChange name [83; 34; 10; 55357; 97] (initial open_storage))
           (initial
              (localStorage
                 (handleGuestSave
                    (onChange name [83; 34; 10; 55357; 97]
                       (initial open_storage)))))).
  - intros f. destruct f; reflexivity.
  - reflexivity.
  - reflexivity.
  - reflexivity.
Defined.

(** C7, as the page has it. When the item [guest_profile] holds a text
    that is not JSON, the guest load leaves the in-memory profile, the
    edit mode, the storage and the toasts as they were: nothing is shown
    to the user and nothing fails. A non-empty text is parsed, and the
    failure is logged on the console; the empty text is not parsed at
    all, and nothing is logged. *)
Theorem guestLoadEffect_malformed (p : Props) (w : World) (blob : list N) :
  isGuestMode p = true ->
  getItem (js "guest_profile") (localStorage w) = Some blob ->
  JSON_parse blob = None ->
  let w' := guestLoadEffect p w in
  profile w' = profile w /\
  isEditing w' = isEditing w /\
  toasts w' = toasts w /\
  localStorage w' = localStorage w /\
  network w' = network w /\
  mutation w' = mutation w /\
  console w' = match blob with
               | [] => console w
               | _ :: _ => console w ++ ["Error loading guest profile:"%string]
               end.
Proof.
  intros Hg Hblob Hparse. unfold guestLoadEffect.
  rewrite Hg, Hblob, Hparse. destruct blob; cbn; repeat split.
Qed.

Lemma guestLoadEffect_malformed_witness :
  profile (guestLoadEffect guest (initial (holding (js "{name:")))) =
    initial_profile /\
  toasts (guestLoadEffect guest (initial (holding (js "{name:")))) = [] /\
  console (guestLoadEffect guest (initial (holding (js "{name:")))) =
    ["Error loading guest profile:"%string].
Proof.
  destruct (guestLoadEffect_malformed guest
              (initial (holding (js "{name:"))) (js "{name:"))
    as (Hp & _ & Ht & _ & _ & _ & Hc); try reflexivity.
  split; [exact Hp|]. split; [exact Ht | exact Hc].
Defined.

(** C7 fails as stated for the empty text: it is not JSON, and the guest
    load logs nothing for it. *)
Lemma malformed_logged_counterexample :
  getItem (js "guest_profile") (localStorage (initial (holding []))) =
    Some [] /\
  JSON_parse [] = None /\
  console (guestLoadEffect guest (initial (holding []))) = [].
Proof. repeat split. Qed.


Lemma holds_initial_profile : holds initial_profile (mkFields [] [] [] [] []).
Proof. intros f. destruct f; reflexivity. Qed.

Lemma mount_guest p st :
  user p = None -> isGuestMode p = true ->
  getItem (js "guest_profile") st = None ->
  mount p st = initial st.
Proof.
  intros Hu Hg Hst. unfold mount, userEffect, guestLoadEffect.
  rewrite Hu, Hg. cbn [localStorage initial]. now rewrite Hst.
Qed.

(** C8. A guest opens the page over a storage without the item
    [guest_profile]: the profile shown is the five empty strings. The
    guest then edits, types Sara as the name and saves; the browser
    accepts the write. The item now holds a text that parses to the
    object with the name Sara and the other four attributes empty, and
    the page's own local read gives that record back: a guest load over
    the storage as the save left it, from whatever in-memory profile, and
    the first render of a later guest visit both show the name Sara and
    the other four attributes empty. *)
Theorem guest_first_save (p : Props) (st : Storage) :
  isGuestMode p = true -> loading p = false -> user p = None ->
  getItem (js "guest_profile") st = None ->
  accepts st (js "guest_profile")
          (stringify (object_of (mkFields [] (js "Sara") [] [] []))) = true ->
  profile (mount p st) = initial_profile /\
  holds (profile (mount p st)) (mkFields [] [] [] [] []) /\
  exists w',
    run p (mount p st) [ClickEdit; Change name (js "Sara"); ClickSave]
      = Some w' /\
    isEditing w' = false /\
    network w' = [] /\
    (exists blob,
       getItem (js "guest_profile") (localStorage w') = Some blob /\
       JSON_parse blob = Some (object_of (mkFields [] (js "Sara") [] [] []))) /\
    (forall w2 : World,
       localStorage w2 = localStorage w' ->
       holds (profile (guestLoadEffect p w2))
             (mkFields [] (js "Sara") [] [] [])) /\
    holds (profile (mount p (localStorage w')))
          (mkFields [] (js "Sara") [] [] []).
Proof.
  intros Hg Hl Hu Hst Hacc. rewrite mount_guest by assumption.
  split; [reflexivity|]. split; [apply holds_initial_profile|].
  set (w1 := onChange name (js "Sara") (setIsEditing true (initial st))).
  assert (Hr : holds (profile w1) (mkFields [] (js "Sara") [] [] [])).
  { intros f. destruct f; reflexivity. }
  change st with (localStorage w1) in Hacc.
  pose proof (handleGuestSave_stores w1 _ Hr Hacc) as Hblob.
  exists (handleGuestSave w1). split.
  - cbn [run step]. unfold save_disabled. rewrite Hl, Hg. cbn.
    now rewrite handleSave_guest.
  - split; [|split; [|split; [|split]]].
    + unfold handleGuestSave, setItem.
      rewrite (profileData_holds w1 _ Hr), Hacc. reflexivity.
    + unfold handleGuestSave, setItem.
      rewrite (profileData_holds w1 _ Hr), Hacc. reflexivity.
    + eexists. split; [exact Hblob | apply JSON_parse_object_of].
    + intros w2 Hw2. apply guestLoadEffect_object_of; [assumption|].
      now rewrite Hw2.
    + unfold mount, userEffect. rewrite Hu.
      apply guestLoadEffect_object_of; [assumption | exact Hblob].
Qed.

Lemma guest_first_save_witness :
  exists w',
    run guest (mount guest open_storage)
        [ClickEdit; Change name (js "Sara"); ClickSave] = Some w' /\
    (exists blob,
       getItem (js "guest_profile") (localStorage w') = Some blob /\
       JSON_parse blob = Some (object_of (mkFields [] (js "Sara") [] [] []))) /\
    holds (profile (guestLoadEffect guest (initial (localStorage w'))))
          (mkFields [] (js "Sara") [] [] []) /\
    holds (profile (mount guest (localStorage w')))
          (mkFields [] (js "Sara") [] [] []).
Proof.
  destruct (guest_first_save guest open_storage)
    as (_ & _ & w' & Hrun & _ & _ & Hblob & Hload & Hmount); try reflexivity.
  exists w'. split; [exact Hrun|]. split; [exact Hblob|].
  split; [apply Hload; reflexivity | exact Hmount].
Defined.

(** [{...prev, ...o}] for an object [o] with each key once: a property of
    [o] wins, any other property of [prev] stays. *)
Lemma spread_lookup props : forall prev k,
  NoDup (map fst props) ->
  spread prev (JObj props) !! k =
    match obj_get k props with
    | Some v => Some v
    | None => prev !! k
    end.
Proof.
  unfold spread. cbn [own_props].
  induction props as [|[k' v'] props IH]; intros prev k Hnd; [reflexivity|].
  cbn [map fst] in Hnd. apply NoDup_cons in Hnd as [Hk' Hnd].
  cbn [fold_left obj_get fst snd]. rewrite IH by assumption.
  destruct (decide (k = k')) as [->|Hne].
  - apply obj_get_None in Hk'. rewrite Hk'. apply lookup_insert_eq.
  - destruct (obj_get k props); [reflexivity|].
    apply lookup_insert_ne. congruence.
Qed.

(** C9. The guest load lays the stored object over the in-memory
    profile: a property the stored object has takes the stored value,
    whether it is one of the five attributes or not; every other
    property, in particular an attribute the stored object lacks, keeps
    its in-memory value. *)
Theorem guestLoadEffect_overlay (p : Props) (w : World) (blob : list N)
  (props : list (list N * json)) :
  isGuestMode p = true ->
  getItem (js "guest_profile") (localStorage w) = Some blob ->
  JSON_parse blob = Some (JObj props) ->
  forall k : list N,
    profile (guestLoadEffect p w) !! k =
      match obj_get k props with
      | Some v => Some v
      | None => profile w !! k
      end.
Proof.
  intros Hg Hblob Hparse k. unfold guestLoadEffect.
  rewrite Hg, Hblob, Hparse.
  destruct blob as [|c blob]; [discriminate|].
  cbn [truthy_str setProfile profile].
  apply spread_lookup. eapply JSON_parse_NoDup, Hparse.
Qed.

Lemma guestLoadEffect_overlay_witness :
  let w := onChange phone (js "0500000000") (initial (holding partial_blob)) in
  profile (guestLoadEffect guest w) !! key name = Some (JStr (js "Sara")) /\
  profile (guestLoadEffect guest w) !! key phone =
    Some (JStr (js "0500000000")) /\
  profile (guestLoadEffect guest w) !! js "city" = Some (JStr (js "Sanaa")).
Proof.
  intros w.
  pose proof (guestLoadEffect_overlay guest w partial_blob
                [(js "name", JStr (js "Sara")); (js "city", JStr (js "Sanaa"))]
                eq_refl eq_refl eq_refl) as H.
  split; [exact (H (key name))|].
  split; [exact (H (key phone)) | exact (H (js "city"))].
Defined.

(** *** The fetched record *)

Lemma lookup_fetched_profile (g : Field -> json) (f : Field) :
  (list_to_map (map (fun f => (key f, g f)) fields) : gmap (list N) json)
    !! key f = Some (g f).
Proof.
  cbn [map fields list_to_map foldr fst snd]. unfold uncurry. cbn [fst snd].
  destruct f;
    repeat (rewrite lookup_insert_ne by (apply key_ne; discriminate));
    apply lookup_insert_eq.
Qed.

(** C6. When the fetched user record has, for each of the five
    attributes, either a string, or null, or nothing at all, the effect
    on [user] sets every attribute of the in-memory profile to a string:
    the fetched string where there is one, the empty string otherwise. *)
Theorem userEffect_defaults (p : Props) (w : World)
  (props : list (list N * json)) :
  user p = Some (JObj props) ->
  (forall (f : Field) (v : json),
     obj_get (key f) props = Some v -> v = JNull \/ exists s, v = JStr s) ->
  forall f : Field,
    profile (userEffect p w) !! key f =
      Some (JStr (fetched (obj_get (key f) props))).
Proof.
  intros Hu Hty f. unfold userEffect. rewrite Hu.
  cbn [truthy setProfile profile].
  rewrite (lookup_fetched_profile
             (fun f => or_empty (get_prop (JObj props) (key f)))).
  cbn [get_prop]. f_equal.
  destruct (obj_get (key f) props) as [v|] eqn:E; [|reflexivity].
  destruct (Hty f v E) as [->|[s ->]]; [reflexivity|].
  destruct s; reflexivity.
Qed.

Lemma userEffect_defaults_witness :
  profile (userEffect omar (initial open_storage)) !! key name =
    Some (JStr (js "Omar")) /\
  profile (userEffect omar (initial open_storage)) !! key phone =
    Some (JStr (js "0500000000")) /\
  profile (userEffect omar (initial open_storage)) !! key username =
    Some (JStr []) /\
  profile (userEffect omar (initial open_storage)) !! key email =
    Some (JStr []) /\
  profile (userEffect omar (initial open_storage)) !! key address =
    Some (JStr []).
Proof.
  assert (H : forall f : Field,
            profile (userEffect omar (initial open_storage)) !! key f =
              Some (JStr (fetched
                (obj_get (key f)
                   [(js "name", JStr (js "Omar"));
                    (js "phone", JStr (js "0500000000"))])))).
  { apply (userEffect_defaults omar (initial open_storage)
             [(js "name", JStr (js "Omar"));
              (js "phone", JStr (js "0500000000"))] eq_refl).
    intros f v. destruct f; vm_compute; intros [= <-]; eauto. }
  split; [exact (H name)|]. split; [exact (H phone)|].
  split; [exact (H username)|]. split; [exact (H email) | exact (H address)].
Defined.

(** *** The guard of the mutation *)

Lemma mutation_handleGuestSave w :
  mutation (handleGuestSave w) = mutation w /\
  network (handleGuestSave w) = network w.
Proof. unfold handleGuestSave. destruct (setItem _ _ _); split; reflexivity. Qed.

Lemma mutation_userEffect p w : mutation (userEffect p w) = mutation w.
Proof.
  unfold userEffect. destruct (user p) as [u|]; [|reflexivity].
  destruct (truthy u); reflexivity.
Qed.

Lemma mutation_guestLoadEffect p w :
  mutation (guestLoadEffect p w) = mutation w.
Proof.
  unfold guestLoadEffect. destruct (isGuestMode p); [|reflexivity].
  destruct (getItem _ _) as [b|]; [|reflexivity].
  destruct (truthy_str (Some b)); [|reflexivity].
  destruct (JSON_parse b); reflexivity.
Qed.

Lemma no_login_error_handleSave p w :
  no_login_error (mutation w) -> no_login_error (mutation (handleSave p w)).
Proof.
  intros H. destruct (isGuestMode p) eqn:Hg.
  - rewrite handleSave_guest by assumption.
    now rewrite (proj1 (mutation_handleGuestSave w)).
  - rewrite handleSave_signed_in by assumption. exact I.
Qed.

Lemma no_login_error_settle p o w :
  no_login_error (mutation w) -> no_login_error (mutation (settle p o w)).
Proof.
  unfold settle. destruct (mutation w) as [|[[]|r]| |[]] eqn:E;
    cbn; rewrite ?E; try tauto; destruct o; cbn; tauto.
Qed.

Lemma no_login_error_step p w e w' :
  step p w e = Some w' ->
  no_login_error (mutation w) -> no_login_error (mutation w').
Proof.
  destruct e; cbn [step]; intros H Hw;
    match type of H with
    | (if ?c then _ else _) = _ => destruct c; [|discriminate]
    end;
    injection H as <-; try exact Hw.
  - now apply no_login_error_handleSave.
  - now apply no_login_error_settle.
Qed.

Lemma no_login_error_reachable w :
  reachable w -> no_login_error (mutation w).
Proof.
  induction 1 as [st | p w _ IH | p w _ IH | p w e w' _ IH Hstep].
  - exact I.
  - now rewrite mutation_userEffect.
  - now rewrite mutation_guestLoadEffect.
  - eapply no_login_error_step; eassumption.
Qed.

(** C10. The check for a missing userId inside the mutation never fires.
    Whenever the page is not in guest mode the mutation function gets past
    it and builds the request; a guest save does not start the mutation
    and sends nothing; and in no world the page can reach is the mutation
    about to fail, or has it failed, with the must-log-in error. *)
Theorem must_login_unreachable :
  (forall (p : Props) (d : literal),
     isGuestMode p = false -> mutationFn p d <> inl MustLogin) /\
  (forall (p : Props) (w : World),
     isGuestMode p = true ->
     mutation (handleSave p w) = mutation w /\
     network (handleSave p w) = network w) /\
  (forall (p : Props) (w : World),
     isGuestMode p = false ->
     mutation (handleSave p w) = Pending (inr (put_request p w))) /\
  (forall w : World,
     reachable w ->
     mutation w <> Pending (inl MustLogin) /\
     mutation w <> Failed MustLogin).
Proof.
  split; [|split; [|split]].
  - intros p d Hg. now rewrite mutationFn_signed_in.
  - intros p w Hg. rewrite handleSave_guest by assumption.
    apply mutation_handleGuestSave.
  - intros p w Hg. now rewrite handleSave_signed_in.
  - intros w H%no_login_error_reachable.
    split; intros E; now rewrite E in H.
Qed.

Lemma must_login_unreachable_witness :
  mutationFn omar [] <> inl MustLogin /\
  mutation (handleSave guest (initial open_storage)) = Idle /\
  mutation (handleSave omar (mount omar open_storage)) =
    Pending (inr (put_request omar (mount omar open_storage))) /\
  mutation
    (settle omar Rejected
       (handleSave omar (setIsEditing true (initial open_storage))))
    <> Failed MustLogin.
Proof.
  destruct must_login_unreachable as (H1 & H2 & H3 & H4).
  split; [apply H1; reflexivity|].
  split; [apply (H2 guest (initial open_storage)); reflexivity|].
  split; [apply H3; reflexivity|].
  apply H4.
  apply (reach_step omar
           (handleSave omar (setIsEditing true (initial open_storage)))
           (Settled Rejected)); [|reflexivity].
  apply (reach_step omar (setIsEditing true (initial open_storage))
           ClickSave); [|reflexivity].
  apply (reach_step omar (initial open_storage) ClickEdit); [|reflexivity].
  apply reach_initial.
Defined.
End PageFacts.

(** ** Whole sessions *)

Module SessionFacts.
Import JS JSON Page JSONFacts PageFacts.

(** *** What each handler leaves alone *)

Lemma settle_frame p o w :
  profile (settle p o w) = profile w /\
  localStorage (settle p o w) = localStorage w /\
  network (settle p o w) = network w /\
  console (settle p o w) = console w.
Proof.
  unfold settle. destruct (mutation w) as [|[e|r]| |e]; try destruct o;
    repeat split.
Qed.

Lemma handleGuestSave_frame w :
  profile (handleGuestSave w) = profile w /\
  network (handleGuestSave w) = network w /\
  mutation (handleGuestSave w) = mutation w /\
  console (handleGuestSave w) = console w /\
  invalidated (handleGuestSave w) = invalidated w.
Proof. unfold handleGuestSave. destruct (setItem _ _ _); repeat split. Qed.

Lemma userEffect_frame p w :
  isEditing (userEffect p w) = isEditing w /\
  localStorage (userEffect p w) = localStorage w /\
  network (userEffect p w) = network w /\
  toasts (userEffect p w) = toasts w /\
  console (userEffect p w) = console w.
Proof.
  unfold userEffect. destruct (user p) as [u|]; [|repeat split].
  destruct (truthy u); repeat split.
Qed.

Lemma guestLoadEffect_frame p w :
  isEditing (guestLoadEffect p w) = isEditing w /\
  localStorage (guestLoadEffect p w) = localStorage w /\
  network (guestLoadEffect p w) = network w /\
  toasts (guestLoadEffect p w) = toasts w /\
  invalidated (guestLoadEffect p w) = invalidated w.
Proof.
  unfold guestLoadEffect. destruct (isGuestMode p); [|repeat split].
  destruct (getItem _ _) as [b|]; [|repeat split].
  destruct (truthy_str (Some b)); [|repeat split].
  destruct (JSON_parse b); repeat split.
Qed.

(** An enabled event, read back from [step]. *)
Lemma step_inv p w e w' :
  step p w e = Some w' ->
  match e with
  | ClickEdit =>
      loading p = false /\ isEditing w = false /\ w' = setIsEditing true w
  | Change f value =>
      loading p = false /\ isEditing w = true /\ w' = onChange f value w
  | ClickSave =>
      loading p = false /\ isEditing w = true /\
      save_disabled p w = false /\ w' = handleSave p w
  | ClickCancel =>
      loading p = false /\ isEditing w = true /\ w' = setIsEditing false w
  | Settled o => isPending w = true /\ w' = settle p o w
  end.
Proof.
  destruct e; cbn [step];
    destruct (loading p), (isEditing w); cbn;
    try discriminate; try (intros [= <-]; repeat split).
  - destruct (save_disabled p w); cbn; [discriminate|].
    intros [= <-]. repeat split.
  - destruct (isPending w); [|discriminate]. intros [= <-]. split; reflexivity.
  - destruct (isPending w); [|discriminate]. intros [= <-]. split; reflexivity.
  - destruct (isPending w); [|discriminate]. intros [= <-]. split; reflexivity.
  - destruct (isPending w); [|discriminate]. intros [= <-]. split; reflexivity.
Qed.

(** What one action does to the network and to the mutation: nothing to
    the network, unless it is a signed-in save, which sends its request
    and goes pending with it. *)
Lemma act_network p w a w' :
  act p w a = Some w' ->
  (network w' = network w /\
   (mutation w' = mutation w \/ is_settlement a = true /\ isPending w' = false))
  \/
  (a = Fire ClickSave /\ isGuestMode p = false /\ isPending w = false /\
   network w' = network w ++ [put_request p w] /\
   mutation w' = Pending (inr (put_request p w))).
Proof.
  destruct a as [e| |]; cbn [act].
  - intros H%step_inv. destruct e.
    + destruct H as (_ & _ & ->). left. split; [reflexivity | now left].
    + destruct H as (_ & _ & ->). left. split; [reflexivity | now left].
    + destruct H as (_ & _ & Hd & ->). destruct (isGuestMode p) eqn:Hg.
      * left. rewrite handleSave_guest by assumption.
        destruct (handleGuestSave_frame w) as (_ & Hn & Hm & _).
        split; [exact Hn | now left].
      * right. unfold save_disabled in Hd. rewrite Hg in Hd. cbn in Hd.
        rewrite handleSave_signed_in by assumption. repeat split; assumption.
    + destruct H as (_ & _ & ->). left. split; [reflexivity | now left].
    + destruct H as (Hp & ->). left.
      split; [apply settle_frame|]. right. split; [reflexivity|].
      unfold isPending, settle in *.
      destruct (mutation w) as [|[e|r]| |e]; try discriminate;
        try destruct o; reflexivity.
  - intros [= <-]. left. split; [apply userEffect_frame|].
    left. apply mutation_userEffect.
  - intros [= <-]. left. split; [apply guestLoadEffect_frame|].
    left. apply mutation_guestLoadEffect.
Qed.

(** What one action does to local storage: nothing, unless it is a guest
    save, which writes the item [guest_profile] when the browser accepts
    the write. *)
Lemma act_storage p w a w' :
  act p w a = Some w' ->
  localStorage w' = localStorage w \/
  (a = Fire ClickSave /\ isGuestMode p = true /\
   items (localStorage w') =
     <[js "guest_profile" := JSON_stringify (profileData w)]>
       (items (localStorage w)) /\
   accepts (localStorage w') = accepts (localStorage w)).
Proof.
  destruct a as [e| |]; cbn [act].
  - intros H%step_inv. destruct e.
    + destruct H as (_ & _ & ->). now left.
    + destruct H as (_ & _ & ->). now left.
    + destruct H as (_ & _ & _ & ->). destruct (isGuestMode p) eqn:Hg.
      * rewrite handleSave_guest by assumption.
        unfold handleGuestSave, setItem.
        destruct (accepts _ _ _); [right | left]; repeat split.
      * left. now rewrite handleSave_signed_in.
    + destruct H as (_ & _ & ->). now left.
    + destruct H as (_ & ->). left. apply settle_frame.
  - intros [= <-]. left. apply userEffect_frame.
  - intros [= <-]. left. apply guestLoadEffect_frame.
Qed.

(** *** What a session never does *)

(** X1. A session in which every render is in guest mode sends no request,
    whatever the guest clicks or types and whichever effects run. *)
Theorem guest_session_sends_nothing (l : list (Props * Action)) :
  forall w w' : World,
    Forall (fun pa => isGuestMode pa.1 = true) l ->
    play w l = Some w' ->
    network w' = network w.
Proof.
  induction l as [|[p a] l IH]; intros w w' Hall Hplay.
  - now injection Hplay as <-.
  - apply Forall_cons in Hall as [Hg Hall]. cbn [fst] in Hg.
    cbn [play] in Hplay. destruct (act p w a) as [w1|] eqn:E; [|discriminate].
    rewrite (IH w1 w' Hall Hplay).
    apply act_network in E as [[Hn _]|(_ & Hs & _)]; [exact Hn | congruence].
Qed.

Lemma guest_session_sends_nothing_witness :
  exists w',
    play (initial open_storage)
         [(guest, RunGuestLoadEffect); (guest, Fire ClickEdit);
          (guest, Fire (Change name (js "Sara"))); (guest, Fire ClickSave)]
      = Some w' /\
    network w' = [].
Proof.
  eexists. split; [reflexivity|].
  apply (guest_session_sends_nothing
           [(guest, RunGuestLoadEffect); (guest, Fire ClickEdit);
            (guest, Fire (Change name (js "Sara"))); (guest, Fire ClickSave)]
           (initial open_storage)).
  - repeat constructor.
  - reflexivity.
Defined.

(** X2. A session in which every render is signed in leaves local storage
    exactly as it was: the page neither writes nor clears the guest
    profile while an account is in use. *)
Theorem signed_in_session_keeps_storage (l : list (Props * Action)) :
  forall w w' : World,
    Forall (fun pa => isGuestMode pa.1 = false) l ->
    play w l = Some w' ->
    localStorage w' = localStorage w.
Proof.
  induction l as [|[p a] l IH]; intros w w' Hall Hplay.
  - now injection Hplay as <-.
  - apply Forall_cons in Hall as [Hg Hall]. cbn [fst] in Hg.
    cbn [play] in Hplay. destruct (act p w a) as [w1|] eqn:E; [|discriminate].
    rewrite (IH w1 w' Hall Hplay).
    apply act_storage in E as [Hs|(_ & Hs & _)]; [exact Hs | congruence].
Qed.

Lemma signed_in_session_keeps_storage_witness :
  exists w',
    play (initial (holding partial_blob))
         [(omar, RunUserEffect); (omar, RunGuestLoadEffect);
          (omar, Fire ClickEdit); (omar, Fire (Change name (js "Omar B")));
          (omar, Fire ClickSave); (omar, Fire (Settled Resolved))]
      = Some w' /\
    localStorage w' = holding partial_blob.
Proof.
  eexists. split; [reflexivity|].
  apply (signed_in_session_keeps_storage
           [(omar, RunUserEffect); (omar, RunGuestLoadEffect);
            (omar, Fire ClickEdit); (omar, Fire (Change name (js "Omar B")));
            (omar, Fire ClickSave); (omar, Fire (Settled Resolved))]
           (initial (holding partial_blob))).
  - repeat constructor.
  - reflexivity.
Defined.

(** X3. Whatever happens in a session, signed in or not, every item of
    local storage other than [guest_profile] keeps its value, and the page
    never removes an item. *)
Theorem session_touches_only_guest_profile (l : list (Props * Action)) :
  forall w w' : World,
    play w l = Some w' ->
    (forall k, k <> js "guest_profile" ->
       getItem k (localStorage w') = getItem k (localStorage w)) /\
    (forall k, is_Some (getItem k (localStorage w)) ->
       is_Some (getItem k (localStorage w'))).
Proof.
  induction l as [|[p a] l IH]; intros w w' Hplay.
  - injection Hplay as <-. split; auto.
  - cbn [play] in Hplay. destruct (act p w a) as [w1|] eqn:E; [|discriminate].
    destruct (IH w1 w' Hplay) as [Hother Hkeep].
    apply act_storage in E as [Hs|(_ & _ & Hitems & _)].
    + rewrite <- Hs. split; assumption.
    + split.
      * intros k Hk. rewrite (Hother k Hk). unfold getItem. rewrite Hitems.
        apply lookup_insert_ne. congruence.
      * intros k Hk. apply Hkeep. unfold getItem in *. rewrite Hitems.
        destruct (decide (js "guest_profile" = k)) as [<-|Hne].
        -- rewrite lookup_insert_eq. eauto.
        -- now rewrite lookup_insert_ne.
Qed.

Lemma session_touches_only_guest_profile_witness :
  exists w',
    play (initial (mkStorage {[ js "theme" := js "dark" ]} (fun _ _ => true)))
         [(guest, Fire ClickEdit); (guest, Fire ClickSave)] = Some w' /\
    getItem (js "theme") (localStorage w') = Some (js "dark").
Proof.
  eexists. split; [reflexivity|].
  destruct (session_touches_only_guest_profile
              [(guest, Fire ClickEdit); (guest, Fire ClickSave)]
              (initial (mkStorage {[ js "theme" := js "dark" ]}
                                  (fun _ _ => true)))
              _ eq_refl) as [Hother _].
  rewrite Hother; [reflexivity | discriminate].
Defined.

(** X4. While a save is in flight, nothing the user does sends a second
    request, and the save stays in flight until it settles: the button is
    disabled for a signed-in render, and a render that fell back to guest
    mode saves locally. *)
Theorem pending_session_sends_nothing (l : list (Props * Action)) :
  forall w w' : World,
    isPending w = true ->
    Forall (fun pa => is_settlement pa.2 = false) l ->
    play w l = Some w' ->
    network w' = network w /\ mutation w' = mutation w.
Proof.
  induction l as [|[p a] l IH]; intros w w' Hp Hall Hplay.
  - injection Hplay as <-. split; reflexivity.
  - apply Forall_cons in Hall as [Ha Hall]. cbn [snd] in Ha.
    cbn [play] in Hplay. destruct (act p w a) as [w1|] eqn:E; [|discriminate].
    apply act_network in E
      as [[Hn [Hm|[Hs _]]]|(_ & _ & Hnp & _)]; try congruence.
    assert (Hp1 : isPending w1 = true) by (unfold isPending in *; now rewrite Hm).
    destruct (IH w1 w' Hp1 Hall Hplay) as [Hn' Hm']. split; congruence.
Qed.

Lemma pending_session_sends_nothing_witness :
  exists w',
    play (handleSave omar (setIsEditing true (mount omar open_storage)))
         [(omar, Fire (Change name (js "Omar B")));
          (omar, Fire ClickCancel); (omar, Fire ClickEdit);
          (guest, Fire ClickSave)] = Some w' /\
    network w' =
      network (handleSave omar (setIsEditing true (mount omar open_storage))) /\
    mutation w' =
      mutation (handleSave omar (setIsEditing true (mount omar open_storage))).
Proof.
  eexists. split; [reflexivity|].
  apply (pending_session_sends_nothing
           [(omar, Fire (Change name (js "Omar B")));
            (omar, Fire ClickCancel); (omar, Fire ClickEdit);
            (guest, Fire ClickSave)]
           (handleSave omar (setIsEditing true (mount omar open_storage)))).
  - reflexivity.
  - repeat constructor.
  - reflexivity.
Defined.

(** What one action does to the in-memory profile, effects aside. *)
Lemma step_profile p w e w' :
  step p w e = Some w' -> is_typing (Fire e) = false ->
  profile w' = profile w.
Proof.
  intros H%step_inv Ht. destruct e; try discriminate.
  - now destruct H as (_ & _ & ->).
  - destruct H as (_ & _ & _ & ->). unfold handleSave, mutate.
    destruct (isGuestMode p); [apply handleGuestSave_frame|].
    destruct (mutationFn p _); reflexivity.
  - now destruct H as (_ & _ & ->).
  - destruct H as (_ & ->). apply settle_frame.
Qed.

(** X5. Only typing changes what the form holds: over any run of clicks
    and settlements without a keystroke (edit, cancel, save, a save that
    succeeds, a save that fails), signed in or not, the in-memory profile
    is what it was. *)
Theorem clicks_keep_profile (l : list (Props * Action)) :
  forall w w' : World,
    Forall (fun pa => is_typing pa.2 = false /\ is_effect pa.2 = false) l ->
    play w l = Some w' ->
    profile w' = profile w.
Proof.
  induction l as [|[p a] l IH]; intros w w' Hall Hplay.
  - now injection Hplay as <-.
  - apply Forall_cons in Hall as [[Ht He] Hall]. cbn [snd] in Ht, He.
    cbn [play] in Hplay. destruct (act p w a) as [w1|] eqn:E; [|discriminate].
    rewrite (IH w1 w' Hall Hplay).
    destruct a as [e| |]; try discriminate.
    eapply step_profile; eassumption.
Qed.

Lemma clicks_keep_profile_witness :
  exists w',
    play (onChange name (js "Omar B") (setIsEditing true (mount omar open_storage)))
         [(omar, Fire ClickSave); (omar, Fire (Settled Rejected));
          (omar, Fire ClickSave); (omar, Fire (Settled Resolved));
          (omar, Fire ClickEdit); (omar, Fire ClickCancel)] = Some w' /\
    profile w' =
      profile (onChange name (js "Omar B")
                 (setIsEditing true (mount omar open_storage))).
Proof.
  eexists. split; [vm_compute; reflexivity|].
  apply (clicks_keep_profile
           [(omar, Fire ClickSave); (omar, Fire (Settled Rejected));
            (omar, Fire ClickSave); (omar, Fire (Settled Resolved));
            (omar, Fire ClickEdit); (omar, Fire ClickCancel)]
           (onChange name (js "Omar B")
              (setIsEditing true (mount omar open_storage)))).
  - repeat constructor.
  - vm_compute. reflexivity.
Defined.

(** *** The requests the page sends *)

Lemma well_formed_put_request p w :
  isGuestMode p = false -> well_formed_request (put_request p w).
Proof.
  intros [_ Hid]%isGuestMode_false. repeat split.
  unfold put_request, userId in *. cbn [url].
  destruct (currentUser p) as [[[|c i]]|]; try discriminate.
  exists (c :: i). split; [discriminate | reflexivity].
Qed.

Lemma reachable_play w :
  reachable w <-> exists st l, play (initial st) l = Some w.
Proof.
  split.
  - assert (Hsnoc : forall w0 l p a w1,
              play w0 l = Some w1 ->
              forall w2, act p w1 a = Some w2 ->
              play w0 (l ++ [(p, a)]) = Some w2).
    { intros w0 l. revert w0.
      induction l as [|[q b] l IH]; intros w0 p a w1 Hl w2 Ha.
      - injection Hl as <-. cbn. now rewrite Ha.
      - cbn [play app] in *. destruct (act q w0 b); [|discriminate].
        eapply IH; eassumption. }
    induction 1 as [st | p w _ (st & l & IH) | p w _ (st & l & IH)
                   | p w e w' _ (st & l & IH) Hstep].
    + exists st, []. reflexivity.
    + exists st, (l ++ [(p, RunUserEffect)]). eapply Hsnoc; [eassumption|reflexivity].
    + exists st, (l ++ [(p, RunGuestLoadEffect)]).
      eapply Hsnoc; [eassumption|reflexivity].
    + exists st, (l ++ [(p, Fire e)]). eapply Hsnoc; eassumption.
  - intros (st & l & H).
    assert (Hgen : forall l w0 w1, reachable w0 -> play w0 l = Some w1 ->
                                   reachable w1).
    { clear. induction l as [|[p a] l IH]; intros w0 w1 Hr Hl.
      - now injection Hl as <-.
      - cbn [play] in Hl. destruct (act p w0 a) as [w2|] eqn:E; [|discriminate].
        apply (IH w2 w1); [|assumption].
        destruct a as [e| |]; cbn [act] in E.
        + eapply reach_step; eassumption.
        + injection E as <-. now apply reach_userEffect.
        + injection E as <-. now apply reach_guestLoadEffect. }
    eapply Hgen; [apply reach_initial | eassumption].
Qed.

(** X6. Every request the page has made through [apiRequest], in any world
    it can reach, is a PUT of exactly the five attributes to [/api/users/]
    followed by a non-empty account id; and a save in flight is the last
    of them. (The fetch of the user query is made by the query client,
    not by the page, and is not among them.) *)
Theorem reachable_requests_well_formed (w : World) :
  reachable w ->
  Forall well_formed_request (network w) /\
  (forall r, mutation w = Pending (inr r) -> last (network w) = Some r).
Proof.
  intros (st & l & Hplay)%reachable_play.
  assert (Hgen : forall l w0 w1,
            Forall well_formed_request (network w0) /\
            (forall r, mutation w0 = Pending (inr r) ->
                       last (network w0) = Some r) ->
            play w0 l = Some w1 ->
            Forall well_formed_request (network w1) /\
            (forall r, mutation w1 = Pending (inr r) ->
                       last (network w1) = Some r)).
  { clear. induction l as [|[p a] l IH]; intros w0 w1 Hinv Hl.
    - now injection Hl as <-.
    - cbn [play] in Hl. destruct (act p w0 a) as [w2|] eqn:E; [|discriminate].
      apply (IH w2 w1); [|assumption]. destruct Hinv as [Hwf Hlast].
      apply act_network in E
        as [[Hn [Hm|[_ Hnp]]]|(_ & Hg & _ & Hn & Hm)].
      + rewrite Hn, Hm. now split.
      + rewrite Hn. split; [assumption|]. intros r Hr.
        unfold isPending in Hnp. now rewrite Hr in Hnp.
      + rewrite Hn, Hm. split.
        * apply Forall_app. split; [assumption|].
          constructor; [now apply well_formed_put_request | constructor].
        * intros r [= <-]. apply last_snoc. }
  apply (Hgen l (initial st) w); [|assumption].
  split; [constructor | discriminate].
Qed.

Lemma reachable_requests_well_formed_witness :
  Forall well_formed_request
    (network (handleSave omar (setIsEditing true (initial open_storage)))).
Proof.
  apply (reachable_requests_well_formed
           (handleSave omar (setIsEditing true (initial open_storage)))).
  apply (reach_step omar (setIsEditing true (initial open_storage))
           ClickSave); [|reflexivity].
  apply (reach_step omar (initial open_storage) ClickEdit); [|reflexivity].
  apply reach_initial.
Defined.

(** *** Saving, to the end *)

(** X7. When the request of a signed-in save succeeds, the form closes,
    one plain toast is shown, the query of the account is invalidated, and
    the in-memory profile and local storage are what they were when the
    user saved; one request has been sent, with the attributes as they
    were at the click. *)
Theorem save_success_closes_form (p : Props) (w : World) :
  loading p = false -> isGuestMode p = false ->
  isEditing w = true -> isPending w = false ->
  exists w',
    run p w [ClickSave; Settled Resolved] = Some w' /\
    isEditing w' = false /\
    profile w' = profile w /\
    mutation w' = Success /\
    (exists t, toasts w' = toasts w ++ [t] /\ variant t = Plain) /\
    invalidated w' = invalidated w ++ [(js "/api/users", userId p)] /\
    localStorage w' = localStorage w /\
    network w' = network w ++ [put_request p w].
Proof.
  intros Hl Hg He Hp. eexists. split.
  - cbn [run step]. unfold save_disabled. rewrite Hl, He, Hg, Hp. cbn.
    rewrite handleSave_signed_in by assumption. cbn. reflexivity.
  - cbn. repeat split. eexists. split; reflexivity.
Qed.

Lemma save_success_closes_form_witness :
  exists w',
    run omar (setIsEditing true (mount omar open_storage))
        [ClickSave; Settled Resolved] = Some w' /\
    isEditing w' = false /\
    profile w' = profile (setIsEditing true (mount omar open_storage)) /\
    mutation w' = Success /\
    (exists t,
       toasts w' = toasts (setIsEditing true (mount omar open_storage)) ++ [t] /\
       variant t = Plain) /\
    invalidated w' =
      invalidated (setIsEditing true (mount omar open_storage))
        ++ [(js "/api/users", userId omar)] /\
    localStorage w' = localStorage (setIsEditing true (mount omar open_storage)) /\
    network w' =
      network (setIsEditing true (mount omar open_storage))
        ++ [put_request omar (setIsEditing true (mount omar open_storage))].
Proof. apply (save_success_closes_form omar); reflexivity. Defined.

(** X8. The inputs stay open while a save is in flight. What the user
    types then is kept in memory and shown, but it is not in the request,
    which carries the attributes as they were at the click; when the
    request succeeds the form closes all the same. *)
Theorem typing_during_save_is_not_sent (p : Props) (w : World) (f : Field)
  (value : list N) :
  loading p = false -> isGuestMode p = false ->
  isEditing w = true -> isPending w = false ->
  exists w',
    run p w [ClickSave; Change f value; Settled Resolved] = Some w' /\
    isEditing w' = false /\
    profile w' = <[key f := JStr value]> (profile w) /\
    network w' = network w ++ [put_request p w] /\
    data (put_request p w) = profileData w.
Proof.
  intros Hl Hg He Hp. eexists. split.
  - cbn [run step]. unfold save_disabled. rewrite Hl, He, Hg, Hp. cbn.
    rewrite handleSave_signed_in by assumption. cbn. rewrite He. cbn.
    reflexivity.
  - cbn. repeat split.
Qed.

Lemma typing_during_save_is_not_sent_witness :
  exists w',
    run omar (setIsEditing true (mount omar open_storage))
        [ClickSave; Change name (js "Omar B"); Settled Resolved] = Some w' /\
    isEditing w' = false /\
    profile w' =
      <[key name := JStr (js "Omar B")]>
        (profile (setIsEditing true (mount omar open_storage))) /\
    network w' =
      network (setIsEditing true (mount omar open_storage))
        ++ [put_request omar (setIsEditing true (mount omar open_storage))] /\
    data (put_request omar (setIsEditing true (mount omar open_storage))) =
      profileData (setIsEditing true (mount omar open_storage)).
Proof.
  apply (typing_during_save_is_not_sent omar
           (setIsEditing true (mount omar open_storage)) name (js "Omar B"));
    reflexivity.
Defined.

(** X9. A guest save shows exactly one toast and touches neither the
    in-memory profile, the network, the mutation nor the console. When the
    browser takes the write the toast is plain and the form closes; when
    it refuses (quota, storage disabled) the toast is destructive, the
    form stays as it is and local storage is unchanged. *)
Theorem handleGuestSave_outcome (w : World) :
  profile (handleGuestSave w) = profile w /\
  network (handleGuestSave w) = network w /\
  mutation (handleGuestSave w) = mutation w /\
  console (handleGuestSave w) = console w /\
  (accepts (localStorage w) (js "guest_profile")
           (JSON_stringify (profileData w)) = true /\
   isEditing (handleGuestSave w) = false /\
   (exists t, toasts (handleGuestSave w) = toasts w ++ [t] /\
              variant t = Plain)
   \/
   accepts (localStorage w) (js "guest_profile")
           (JSON_stringify (profileData w)) = false /\
   isEditing (handleGuestSave w) = isEditing w /\
   localStorage (handleGuestSave w) = localStorage w /\
   (exists t, toasts (handleGuestSave w) = toasts w ++ [t] /\
              variant t = Destructive)).
Proof.
  unfold handleGuestSave, setItem.
  destruct (accepts _ _ _); cbn; repeat split.
  - left. repeat split. eexists. split; reflexivity.
  - right. repeat split. eexists. split; reflexivity.
Qed.

(** X10. Opening the form and cancelling it without typing leaves the
    page exactly as it was. *)
Theorem edit_cancel_is_noop (p : Props) (w : World) :
  loading p = false -> isEditing w = false ->
  run p w [ClickEdit; ClickCancel] = Some w.
Proof.
  intros Hl He. cbn [run step]. rewrite Hl, He. cbn.
  destruct w. cbn in *. now subst.
Qed.

Lemma edit_cancel_is_noop_witness :
  run omar (mount omar open_storage) [ClickEdit; ClickCancel] =
    Some (mount omar open_storage).
Proof. apply (edit_cancel_is_noop omar); reflexivity. Defined.

(** *** Loading *)

(** X11. When the query of the account is enabled the page is not in guest
    mode, the guest load does nothing, and the profile shown after the
    first render does not depend on what local storage holds: a guest
    profile saved earlier is neither read nor merged. *)
Theorem signed_in_ignores_guest_profile (p : Props) :
  query_enabled p = true ->
  isGuestMode p = false /\
  (forall w, guestLoadEffect p w = w) /\
  (forall st st', profile (mount p st) = profile (mount p st')).
Proof.
  unfold query_enabled. intros [Hid Hauth]%andb_prop.
  assert (Hg : isGuestMode p = false) by (apply isGuestMode_false; now split).
  split; [assumption|]. split.
  - intros w. unfold guestLoadEffect. now rewrite Hg.
  - intros st st'. unfold mount, guestLoadEffect. rewrite Hg.
    unfold userEffect. destruct (user p) as [u|]; [|reflexivity].
    destruct (truthy u); reflexivity.
Qed.

Lemma signed_in_ignores_guest_profile_witness :
  guestLoadEffect omar (initial (holding partial_blob)) =
    initial (holding partial_blob) /\
  profile (mount omar (holding partial_blob)) =
    profile (mount omar open_storage).
Proof.
  destruct (signed_in_ignores_guest_profile omar eq_refl) as (_ & H1 & H2).
  split; [apply H1 | apply H2].
Defined.

(** X12. When a fetched user record arrives, the effect replaces the whole
    in-memory profile: the result does not depend on what was there (edits
    not yet saved are gone), it has the five attributes and no other
    property, and each attribute is the empty string or a value that is
    not null, false, zero or empty. *)
Theorem userEffect_whole_record (p : Props) (u : json) (w : World) :
  user p = Some u -> truthy u = true ->
  (forall w0, profile (userEffect p w) = profile (userEffect p w0)) /\
  (forall k, (forall f, k <> key f) -> profile (userEffect p w) !! k = None) /\
  (forall f, exists v,
     profile (userEffect p w) !! key f = Some v /\
     (v = JStr [] \/ truthy v = true)).
Proof.
  intros Hu Ht. unfold userEffect. rewrite Hu, Ht.
  cbn [setProfile profile]. split; [reflexivity|]. split.
  - intros k Hk. cbn [map fields list_to_map foldr]. unfold uncurry.
    cbn [fst snd].
    repeat (rewrite lookup_insert_ne by (apply not_eq_sym, Hk)).
    apply lookup_empty.
  - intros f.
    rewrite (lookup_fetched_profile (fun f => or_empty (get_prop u (key f)))).
    eexists. split; [reflexivity|]. unfold or_empty.
    destruct (get_prop u (key f)) as [v|]; [|now left].
    destruct (truthy v) eqn:Hv; [now right | now left].
Qed.

Lemma userEffect_whole_record_witness :
  profile (userEffect omar
             (onChange email (js "x@y.z") (initial (holding partial_blob))))
    = profile (userEffect omar (initial open_storage)) /\
  profile (userEffect omar (initial open_storage)) !! js "city" = None.
Proof.
  destruct (userEffect_whole_record omar
              (JObj [(js "name", JStr (js "Omar"));
                     (js "phone", JStr (js "0500000000"))])
              (onChange email (js "x@y.z") (initial (holding partial_blob)))
              eq_refl eq_refl) as (H1 & _ & _).
  destruct (userEffect_whole_record omar
              (JObj [(js "name", JStr (js "Omar"));
                     (js "phone", JStr (js "0500000000"))])
              (initial open_storage)
              eq_refl eq_refl) as (_ & H2 & _).
  split; [apply H1|]. apply H2. intros f. destruct f; discriminate.
Defined.

Lemma obj_get_app k l1 l2 :
  obj_get k (l1 ++ l2) =
    match obj_get k l1 with
    | Some v => Some v
    | None => obj_get k l2
    end.
Proof.
  induction l1 as [|[k' v'] l1 IH]; [reflexivity|]. cbn [app obj_get].
  destruct (decide (k = k')); [reflexivity | exact IH].
Qed.

(** Properties written one after the other: the last one written under a
    key is the one read, and a key not written keeps its value. *)
Lemma fold_insert_lookup (l : list (list N * json)) :
  forall (m : gmap (list N) json) k,
    fold_left (fun m kv => <[kv.1 := kv.2]> m) l m !! k =
      match obj_get k (rev l) with
      | Some v => Some v
      | None => m !! k
      end.
Proof.
  induction l as [|[k' v'] l IH]; intros m k; [reflexivity|].
  cbn [fold_left rev fst snd]. rewrite IH, obj_get_app. cbn [obj_get].
  destruct (obj_get k (rev l)); [reflexivity|].
  destruct (decide (k = k')) as [->|Hne].
  - apply lookup_insert_eq.
  - apply lookup_insert_ne. congruence.
Qed.

Lemma spread_twice m v : spread (spread m v) v = spread m v.
Proof.
  apply map_eq. intros k. unfold spread. rewrite !fold_insert_lookup.
  destruct (obj_get k (rev (own_props v))); reflexivity.
Qed.

(** X13. Running the guest load a second time changes nothing in the
    profile it produced the first time; and however often it runs, it
    leaves the edit mode, local storage, the toasts and the network as
    they were. Only the console can grow. *)
Theorem guestLoadEffect_twice (p : Props) (w : World) :
  profile (guestLoadEffect p (guestLoadEffect p w)) =
    profile (guestLoadEffect p w) /\
  isEditing (guestLoadEffect p (guestLoadEffect p w)) = isEditing w /\
  localStorage (guestLoadEffect p (guestLoadEffect p w)) = localStorage w /\
  toasts (guestLoadEffect p (guestLoadEffect p w)) = toasts w /\
  network (guestLoadEffect p (guestLoadEffect p w)) = network w.
Proof.
  destruct (guestLoadEffect_frame p w) as (He & Hs & Hn & Ht & _).
  destruct (guestLoadEffect_frame p (guestLoadEffect p w))
    as (He' & Hs' & Hn' & Ht' & _).
  split; [|repeat split; congruence].
  unfold guestLoadEffect at 1. rewrite Hs. unfold guestLoadEffect.
  destruct (isGuestMode p); [|reflexivity].
  destruct (getItem _ _) as [b|]; [|reflexivity].
  destruct (truthy_str (Some b)); [|reflexivity].
  destruct (JSON_parse b) as [v|]; [|reflexivity].
  cbn [setProfile profile]. apply spread_twice.
Qed.

(** The key of an index starts with a decimal digit. *)
Lemma dec_digits_head fuel : forall n acc,
  exists d rest, dec_digits (S fuel) n acc = d :: rest /\ 48 <= d <= 57.
Proof.
  induction fuel as [|fuel IH]; intros n acc; cbn [dec_digits].
  - exists (48 + n mod 10), acc.
    split; [now destruct (n / 10 =? 0)|].
    pose proof (N.mod_lt n 10). lia.
  - destruct (n / 10 =? 0); [|apply IH].
    exists (48 + n mod 10), acc. split; [reflexivity|].
    pose proof (N.mod_lt n 10). lia.
Qed.

Lemma index_key_not_attribute i f : key f <> index_key i.
Proof.
  unfold index_key.
  destruct (dec_digits_head i (N.of_nat i) []) as (d & rest & -> & Hd).
  destruct f; intros [= <- _]; lia.
Qed.

Lemma indexed_keys {A : Type} (xs : list A) : forall n k,
  k ∈ map fst (indexed n xs) -> exists i, k = index_key i.
Proof.
  induction xs as [|x xs IH]; intros n k; cbn [indexed map fst].
  - intros H. now apply elem_of_nil in H.
  - intros [->|H]%elem_of_cons; [eauto | eapply IH, H].
Qed.

Lemma own_props_not_attribute v f :
  is_object v = false -> key f ∉ map fst (own_props v).
Proof.
  destruct v; cbn [own_props is_object]; try discriminate; intros _;
    try apply not_elem_of_nil;
    intros [i Hi]%indexed_keys; exact (index_key_not_attribute i f Hi).
Qed.

(** X14. A stored text that is valid JSON but not an object (null, a
    number, true, a string, an array) is accepted silently: the five
    attributes keep their in-memory values, nothing is logged and no toast
    is shown. *)
Theorem guestLoadEffect_not_object (p : Props) (w : World) (blob : list N)
  (v : json) :
  getItem (js "guest_profile") (localStorage w) = Some blob ->
  JSON_parse blob = Some v ->
  is_object v = false ->
  (forall f : Field,
     profile (guestLoadEffect p w) !! key f = profile w !! key f) /\
  console (guestLoadEffect p w) = console w /\
  toasts (guestLoadEffect p w) = toasts w.
Proof.
  intros Hblob Hparse Hv. unfold guestLoadEffect. rewrite Hblob, Hparse.
  destruct (isGuestMode p); [|repeat split].
  destruct (truthy_str (Some blob)); [|repeat split].
  cbn [setProfile profile console toasts]. repeat split.
  intros f. unfold spread. rewrite fold_insert_lookup.
  replace (obj_get (key f) (rev (own_props v))) with (@None json);
    [reflexivity|].
  symmetry. apply obj_get_None. rewrite map_rev.
  intros Hin%list_elem_of_In%in_rev%list_elem_of_In.
  now apply (own_props_not_attribute v f).
Qed.

Lemma guestLoadEffect_not_object_witness :
  (forall f : Field,
     profile (guestLoadEffect guest (initial (holding (quote (js "Sara")))))
       !! key f = initial_profile !! key f) /\
  console (guestLoadEffect guest (initial (holding (quote (js "Sara"))))) = [].
Proof.
  destruct (guestLoadEffect_not_object guest
              (initial (holding (quote (js "Sara"))))
              (quote (js "Sara")) (JStr (js "Sara"))
              eq_refl eq_refl eq_refl) as (H & Hc & _).
  split; [exact H | exact Hc].
Defined.





(** *** The attributes are always there *)

Lemma initial_profile_defined f : is_Some (initial_profile !! key f).
Proof.
  unfold initial_profile.
  rewrite (lookup_fetched_profile (fun _ => JStr [])). eauto.
Qed.

(** X16. In every world the page can reach, each of the five attributes of
    the in-memory profile has a value: no load, edit or save ever leaves
    one undefined, so the inputs are always controlled and both save paths
    always write all five members. *)
Theorem reachable_attributes_defined (w : World) :
  reachable w -> forall f : Field, is_Some (profile w !! key f).
Proof.
  induction 1 as [st | p w _ IH | p w _ IH | p w e w' _ IH Hstep]; intros f.
  - apply initial_profile_defined.
  - unfold userEffect. destruct (user p) as [u|]; [|apply IH].
    destruct (truthy u); [|apply IH]. cbn [setProfile profile].
    rewrite (lookup_fetched_profile
               (fun f => or_empty (get_prop u (key f)))). eauto.
  - unfold guestLoadEffect. destruct (isGuestMode p); [|apply IH].
    destruct (getItem _ _) as [b|]; [|apply IH].
    destruct (truthy_str (Some b)); [|apply IH].
    destruct (JSON_parse b) as [v|]; [|apply IH].
    cbn [setProfile profile]. unfold spread. rewrite fold_insert_lookup.
    destruct (obj_get _ _); [eauto | apply IH].
  - destruct e as [|g value| | |o];
      try (rewrite (step_profile p w _ w' Hstep eq_refl); apply IH).
    apply step_inv in Hstep as (_ & _ & ->). cbn [onChange setProfile profile].
    destruct (decide (key g = key f)) as [->|Hne].
    + rewrite lookup_insert_eq. eauto.
    + rewrite lookup_insert_ne by assumption. apply IH.
Qed.

Lemma reachable_attributes_defined_witness :
  is_Some
    (profile (guestLoadEffect guest (initial (holding partial_blob)))
       !! key phone).
Proof.
  apply (reachable_attributes_defined
           (guestLoadEffect guest (initial (holding partial_blob)))).
  apply reach_guestLoadEffect, reach_initial.
Defined.

End SessionFacts.
